(** * iCal library: components with a duration, recurring occurrences, properties

    A shallow embedding of

    - [ical_library/ical_components/abstract_components.py]
      ([AbstractComponentWithDuration], [AbstractRecurringComponentWithDuration]),
    - [ical_reader/ical_components/v_journal.py] ([VJournal], [VRecurringJournal]),
    - [ical_reader/base_classes/property.py] ([Property]),

    together with the statements about them.  [v_journal.py] imports its two
    bases under the names [AbstractStartStopComponent] and
    [AbstractRecurringComponent]; they are the classes that
    [abstract_components.py] defines, [AbstractComponentWithDuration] and
    [AbstractRecurringComponentWithDuration].

    Python objects are modelled as they are at run time: an object has a class
    and an instance dictionary, objects live in a store and are referred to by
    their identity, attribute reads go through the class first (properties)
    and the instance dictionary second, and every operation either returns a
    value or raises an exception. *)

From stdpp Require Import gmap strings list fin_maps.
From Stdlib Require Import ZArith Ascii String Lia.

Open Scope string_scope.
Open Scope Z_scope.

(** ** Values *)

(** The identity of a component object. *)
Definition loc := positive.

(** [Property.__init__]: the four private fields of a property.  [address]
    is the identity of the object (what [is] compares, [id(self)]): it is no
    attribute, and no operation of [Property] reads it. *)
Record Property := {
  _parent : loc;
  _name : string;
  _sub_properties : option string;
  _value : option string;
  address : positive
}.

Global Instance Property_eq_dec : EqDecision Property.
Proof. solve_decision. Defined.

(** Run-time values.  Instants are positions on one time line and durations
    ([pendulum.Duration] without years and months, [pendulum.Period]) are
    differences of positions; both are integers here, in microseconds.
    [VDate t] is a [pendulum.DateTime], [t] microseconds after
    0001-01-01T00:00 (date-times are taken in UTC); [VDay n] is a
    [pendulum.Date], [n] days after 0001-01-01.  [VDT p t] is a date property
    ([_DTBoth]: [DTStart] and its siblings) whose [datetime_or_date_value] is
    the date-time [t], and [VD p n] one whose [datetime_or_date_value] is the
    date [n]. *)
Inductive value :=
| VNone
| VStr (s : string)
| VProp (p : Property)
| VDT (p : Property) (t : Z)
| VDate (t : Z)
| VDuration (d : Z)
| VList (l : list Property)
| VRef (l : loc)
| VMethod (self : loc) (name : string)
| VTimespan (parent : loc) (begin end_ : value)
| VD (p : Property) (n : Z)
| VDay (n : Z).

Global Instance value_eq_dec : EqDecision value.
Proof. solve_decision. Defined.

(** Exceptions, by class, with their constructor arguments. *)
Inductive exn :=
| MissingRequiredProperty (component : loc) (missing_property_name : string)
| ValueError (args : list value)
| AttributeError (name : string)
| TypeError
| IndexError
| RecursionError
| OverflowError.

(** [type(e).__name__] *)
Definition exn_name (e : exn) : string :=
  match e with
  | MissingRequiredProperty _ _ => "MissingRequiredProperty"
  | ValueError _ => "ValueError"
  | AttributeError _ => "AttributeError"
  | TypeError => "TypeError"
  | IndexError => "IndexError"
  | RecursionError => "RecursionError"
  | OverflowError => "OverflowError"
  end.

Inductive res (A : Type) :=
| Ok (a : A)
| Raise (e : exn).
Arguments Ok {A} a.
Arguments Raise {A} e.

(** ** Strings *)

(** [s.count(c)] for a one-character [c]. *)
Fixpoint str_count (s : string) (c : ascii) : nat :=
  match s with
  | EmptyString => 0%nat
  | String a s' => ((if Ascii.eqb a c then 1 else 0) + str_count s' c)%nat
  end.

(** [s.split(sep)] for a one-character [sep]: never the empty list. *)
Fixpoint str_split (s : string) (sep : ascii) : list string :=
  match s with
  | EmptyString => [EmptyString]
  | String a s' =>
      if Ascii.eqb a sep then EmptyString :: str_split s' sep
      else match str_split s' sep with
           | [] => [String a EmptyString]
           | piece :: pieces => String a piece :: pieces
           end
  end.

(** [l[i]] *)
Definition index {A : Type} (l : list A) (i : nat) : res A :=
  match l !! i with
  | Some x => Ok x
  | None => Raise IndexError
  end.

(** [s or ""] for an optional string: [None] and the empty string are falsy. *)
Definition or_empty (s : option string) : string :=
  match s with
  | None => ""
  | Some s' => s'
  end.

(** ** [Property.sub_properties] *)

(** The dictionary comprehension
    [{kv.split("=")[0]: kv.split("=")[1] for kv in tokens if kv.count("=") == 1}],
    run from left to right over [tokens] into the dictionary [acc]. *)
Fixpoint dict_comprehension (tokens : list string) (acc : gmap string string)
  : res (gmap string string) :=
  match tokens with
  | [] => Ok acc
  | key_and_value :: rest =>
      if Nat.eqb (str_count key_and_value "=") 1 then
        match index (str_split key_and_value "=") 0 with
        | Raise e => Raise e
        | Ok k =>
            match index (str_split key_and_value "=") 1 with
            | Raise e => Raise e
            | Ok v => dict_comprehension rest (<[k := v]> acc)
            end
        end
      else dict_comprehension rest acc
  end.

(** The tokens the comprehension iterates over. *)
Definition sub_property_tokens (self : Property) : list string :=
  let sub_properties_str := or_empty (_sub_properties self) in
  str_split sub_properties_str ";".

(** The property [sub_properties].  It is memoized per instance; a
    [Property] is a value here and its fields do not change, so that a
    memoized dictionary is the computed one. *)
Definition sub_properties (self : Property) : res (gmap string string) :=
  dict_comprehension (sub_property_tokens self) ∅.

(** ** Objects and the store *)

(** The concrete component classes.  [VJournal] and [VRecurringJournal] are
    defined in [v_journal.py]; the docstrings of [abstract_components.py] name
    the other four. *)
Inductive class :=
| VEvent | VToDo | VJournal
| VRecurringEvent | VRecurringToDo | VRecurringJournal.

Global Instance class_eq_dec : EqDecision class.
Proof. solve_decision. Defined.

(** Whether [AbstractRecurringComponentWithDuration] is among the bases. *)
Definition is_recurring (c : class) : bool :=
  match c with
  | VRecurringEvent | VRecurringToDo | VRecurringJournal => true
  | _ => false
  end.

(** The component class a class derives from ([VRecurringJournal] derives
    from [VJournal]); a component class stands for itself. *)
Definition component_class (c : class) : class :=
  match c with
  | VEvent | VRecurringEvent => VEvent
  | VToDo | VRecurringToDo => VToDo
  | VJournal | VRecurringJournal => VJournal
  end.

(** An object: its class, its instance dictionary, and the values memoized on
    it by [instance_lru_cache], by function name. *)
Record object := {
  obj_class : class;
  obj_dict : gmap string value;
  obj_cache : gmap string value
}.

Abbreviation heap := (gmap loc object).

(** ** Computations: a store and exceptions *)

Definition M (A : Type) : Type := heap → res A * heap.

Definition ret {A : Type} (a : A) : M A := λ h, (Ok a, h).

Definition raise {A : Type} (e : exn) : M A := λ h, (Raise e, h).

(** An operation that does not touch the store. *)
Definition lift {A : Type} (r : res A) : M A := λ h, (r, h).

Definition bind {A B : Type} (m : M A) (k : A → M B) : M B :=
  λ h, match m h with
       | (Ok a, h') => k a h'
       | (Raise e, h') => (Raise e, h')
       end.

Notation "'let*' x ':=' m 'in' k" := (bind m (λ x, k))
  (at level 10, x binder, m at level 100, k at level 200).

(** Dereference.  A reference that is not in the store has no attributes. *)
Definition load (l : loc) : M object :=
  λ h, match h !! l with
       | Some o => (Ok o, h)
       | None => (Raise (AttributeError "__dict__"), h)
       end.

(** [type(x)] *)
Definition type_of (l : loc) : M class :=
  let* o := load l in ret (obj_class o).

(** [o] with [key] set to [v] in its instance dictionary. *)
Definition with_field (o : object) (key : string) (v : value) : object :=
  {| obj_class := obj_class o;
     obj_dict := <[key := v]> (obj_dict o);
     obj_cache := obj_cache o |}.

(** [o] with [v] memoized for the function [slot]. *)
Definition with_memo (o : object) (slot : string) (v : value) : object :=
  {| obj_class := obj_class o;
     obj_dict := obj_dict o;
     obj_cache := <[slot := v]> (obj_cache o) |}.

(** [x.__dict__[key] = v] *)
Definition store_field (l : loc) (key : string) (v : value) : M unit :=
  λ h, match h !! l with
       | Some o => (Ok (), <[l := with_field o key v]> h)
       | None => (Raise (AttributeError "__dict__"), h)
       end.

Definition store_cache (l : loc) (slot : string) (v : value) : M unit :=
  λ h, match h !! l with
       | Some o => (Ok (), <[l := with_memo o slot v]> h)
       | None => (Raise (AttributeError "__dict__"), h)
       end.

(** A new object of class [c] with an empty dictionary. *)
Definition alloc (c : class) : M loc :=
  λ h, let l := fresh (dom h) in
       (Ok l, <[l := {| obj_class := c; obj_dict := ∅; obj_cache := ∅ |}]> h).

(** ** Operators *)

(** [bool(v)].  A [Duration] is falsy when it is zero, a list when it is
    empty; [None] is falsy; property objects, instants and components define
    neither [__bool__] nor [__len__] and are truthy. *)
Definition truthy (v : value) : bool :=
  match v with
  | VNone => false
  | VStr s => negb (String.eqb s "")
  | VDuration d => negb (Z.eqb d 0)
  | VList l => match l with [] => false | _ => true end
  | _ => true
  end.

(** [v is None] *)
Definition is_None (v : value) : bool :=
  match v with
  | VNone => true
  | _ => false
  end.

(** [p is q] for two property objects. *)
Definition same_object (p q : Property) : bool :=
  bool_decide (address p = address q).

(** [l == l'] for two lists of property objects: the same length and, item
    by item, the same object. *)
Fixpoint py_eq_properties (l l' : list Property) : bool :=
  match l, l' with
  | [], [] => true
  | p :: l, q :: l' => same_object p q && py_eq_properties l l'
  | _, _ => false
  end.

(** [a == b].  [Property] defines no [__eq__]: two property objects are
    equal when they are one object, whatever their content.  Lists are equal
    when their items are; strings, instants and durations compare by their
    content, position and length, components by identity. *)
Definition py_eq (a b : value) : bool :=
  match a, b with
  | VProp p, VProp q | VProp p, VDT q _ | VProp p, VD q _
  | VDT p _, VProp q | VDT p _, VDT q _ | VDT p _, VD q _
  | VD p _, VProp q | VD p _, VDT q _ | VD p _, VD q _ => same_object p q
  | VList l, VList l' => py_eq_properties l l'
  | _, _ => bool_decide (a = b)
  end.

(** The range of [datetime] and [date]: from 0001-01-01 to the last
    microsecond, and the last day, of 9999-12-31; the range of [timedelta]. *)
Definition microseconds_per_day : Z := 86400000000.
Definition datetime_max : Z := 3652059 * microseconds_per_day - 1.
Definition date_max : Z := 3652058.
Definition timedelta_max : Z := 1000000000 * microseconds_per_day - 1.
Definition timedelta_min : Z := - 999999999 * microseconds_per_day.

(** A date-time, a date, a duration: [OverflowError] out of range. *)
Definition datetime_at (t : Z) : res value :=
  if (0 <=? t) && (t <=? datetime_max) then Ok (VDate t) else Raise OverflowError.

Definition date_at (n : Z) : res value :=
  if (0 <=? n) && (n <=? date_max) then Ok (VDay n) else Raise OverflowError.

Definition duration_of_length (d : Z) : res value :=
  if (timedelta_min <=? d) && (d <=? timedelta_max) then Ok (VDuration d)
  else Raise OverflowError.

(** The whole days of a duration, towards zero: what [pendulum] adds to a
    date, which has no time of day. *)
Definition whole_days (d : Z) : Z := Z.quot d microseconds_per_day.

(** [a + b]: an instant plus a duration.  A date-time moves by the duration, a
    date by its whole days; the result is an instant of the same kind, and
    [OverflowError] when it is out of range. *)
Definition py_add (a b : value) : res value :=
  match a, b with
  | VDate t, VDuration d => datetime_at (t + d)
  | VDay n, VDuration d => date_at (n + whole_days d)
  | VDuration d, VDuration d' => duration_of_length (d + d')
  | _, _ => Raise TypeError
  end.

(** [a - b]: the period between two instants, or an instant minus a
    duration.  A date minus a date-time is the period from the day of the
    date-time; a date-time minus a date is a [TypeError]. *)
Definition py_sub (a b : value) : res value :=
  match a, b with
  | VDate t, VDate t' => Ok (VDuration (t - t'))
  | VDay n, VDay n' => Ok (VDuration ((n - n') * microseconds_per_day))
  | VDay n, VDate t =>
      Ok (VDuration ((n - t `div` microseconds_per_day) * microseconds_per_day))
  | VDate t, VDuration d => datetime_at (t - d)
  | VDay n, VDuration d => date_at (n - whole_days d)
  | VDuration d, VDuration d' => duration_of_length (d - d')
  | _, _ => Raise TypeError
  end.

(** [p.datetime_or_date_value] of a date property. *)
Definition datetime_or_date_value (v : value) : res value :=
  match v with
  | VDT _ t => Ok (VDate t)
  | VD _ n => Ok (VDay n)
  | _ => Raise (AttributeError "datetime_or_date_value")
  end.

(** Lookup in a table keyed by attribute name. *)
Fixpoint assoc {A : Type} (name : string) (table : list (string * A)) : option A :=
  match table with
  | [] => None
  | (key, a) :: table' => if String.eqb name key then Some a else assoc name table'
  end.

(** [name in names] *)
Definition name_in (name : string) (names : list string) : bool :=
  existsb (String.eqb name) names.

(** ** The classes *)

(** How an attribute of an object is read ([x.name], that is,
    [type(x).__getattribute__(x, name)]) and written ([x.name = v]).  The
    bodies of properties and methods are written against these two, as the
    source is written against [self.name]. *)
Definition reader : Type := loc → string → M value.
Definition writer : Type := loc → string → value → M unit.

(** [v.name] for a value that may not be a component. *)
Definition getattr_of (ga : reader) (v : value) (name : string) : M value :=
  match v with
  | VRef l => ga l name
  | _ => raise (AttributeError name)
  end.

(** Modelled from the spec: [help_modules/lru_cache.py] is not among the
    sources.  [instance_lru_cache] memoizes a function of [self] once per
    instance (spec 4.3: "derived, memoized-once values"; a later change of
    the underlying properties leaves the memoized value stale).  A call that
    raises memoizes nothing. *)
Definition instance_lru_cache (slot : string) (body : reader → loc → M value)
  : reader → loc → M value :=
  λ ga self,
    let* o := load self in
    match obj_cache o !! slot with
    | Some v => ret v
    | None =>
        let* v := body ga self in
        let* _ := store_cache self slot v in
        ret v
    end.

(** *** [AbstractComponentWithDuration] *)

(** The [dtstamp] getter. *)
Definition dtstamp (ga : reader) (self : loc) : M value :=
  let* v := ga self "_dtstamp" in
  if is_None v then raise (MissingRequiredProperty self "dtstamp")
  else ga self "_dtstamp".

(** The [dtstamp] setter. *)
Definition dtstamp_setter (sa : writer) (self : loc) (v : value) : M unit :=
  sa self "_dtstamp" v.

(** The [uid] getter. *)
Definition uid (ga : reader) (self : loc) : M value :=
  let* v := ga self "_uid" in
  if is_None v then raise (MissingRequiredProperty self "uid")
  else ga self "_uid".

(** The [uid] setter. *)
Definition uid_setter (sa : writer) (self : loc) (v : value) : M unit :=
  sa self "_uid" v.

(** [VJournal.ending]: the [dtstart] property. *)
Definition VJournal_ending (ga : reader) (self : loc) : M value :=
  ga self "dtstart".

(** [VJournal.get_duration]: [Duration()], the zero duration. *)
Definition VJournal_get_duration (ga : reader) (self : loc) : M value :=
  ret (VDuration 0).

(** Modelled from the spec: [v_event.py] is not among the sources.  Spec 4.3:
    the ending of an event is "its explicit end property". *)
Definition VEvent_ending (ga : reader) (self : loc) : M value :=
  ga self "dtend".

(** Modelled from the spec: [v_todo.py] is not among the sources.  Spec 4.3:
    the ending of a to-do is "its due property". *)
Definition VToDo_ending (ga : reader) (self : loc) : M value :=
  ga self "due".

(** Modelled from the spec: [v_event.py] and [v_todo.py] are not among the
    sources.  Spec 4.3: the duration of an event or a to-do is the "explicit
    duration property if set, else null"; the field [duration] holds that
    duration, or [None]. *)
Definition VEvent_get_duration (ga : reader) (self : loc) : M value :=
  ga self "duration".

(** The abstract property [ending], by the class of [self]. *)
Definition ending (c : class) : reader → loc → M value :=
  match component_class c with
  | VEvent => VEvent_ending
  | VToDo => VToDo_ending
  | _ => VJournal_ending
  end.

(** The abstract method [get_duration], called as [self.get_duration()].
    Methods are found on the class of [self]: the sources never assign to a
    method name. *)
Definition get_duration (ga : reader) (self : loc) : M value :=
  let* c := type_of self in
  match component_class c with
  | VEvent | VToDo => VEvent_get_duration ga self
  | _ => VJournal_get_duration ga self
  end.

(** The [start] property of a component. *)
Definition start : reader → loc → M value :=
  instance_lru_cache "start" (λ ga self,
    let* d := ga self "dtstart" in
    if truthy d then
      let* d' := ga self "dtstart" in
      lift (datetime_or_date_value d')
    else ret VNone).

(** The [end] property of a component. *)
Definition end_ : reader → loc → M value :=
  instance_lru_cache "end" (λ ga self,
    let* e := ga self "ending" in
    if truthy e then
      let* e' := ga self "ending" in
      lift (datetime_or_date_value e')
    else
      let* s := ga self "start" in
      if truthy s then
        let* d := get_duration ga self in
        if truthy d then
          let* s' := ga self "start" in
          let* d' := get_duration ga self in
          lift (py_add s' d')
        else ret VNone
      else ret VNone).

(** The [computed_duration] property. *)
Definition computed_duration : reader → loc → M value :=
  instance_lru_cache "computed_duration" (λ ga self,
    let* a_duration := get_duration ga self in
    if truthy a_duration then ret a_duration
    else
      let* e := ga self "end" in
      if truthy e then
        let* s := ga self "start" in
        if truthy s then
          let* e' := ga self "end" in
          let* s' := ga self "start" in
          lift (py_sub e' s')
        else ret VNone
      else ret VNone).

(** The [timespan] property.  The message of the [ValueError] is formatted
    from [self.start] and [self.end], which are read again for it and kept as
    the arguments of the exception. *)
Definition timespan (ga : reader) (self : loc) : M value :=
  let raise_ValueError : M value :=
    let* s := ga self "start" in
    let* e := ga self "end" in
    raise (ValueError [s; e]) in
  let* s := ga self "start" in
  if is_None s then raise_ValueError
  else
    let* e := ga self "end" in
    if is_None e then raise_ValueError
    else
      let* s' := ga self "start" in
      let* e' := ga self "end" in
      ret (VTimespan self s' e').

(** [AbstractComponentWithDuration.__eq__].  The classes of [v_journal.py]
    do not inherit it: [@dataclass] gives each of them an [__eq__] of its own,
    [dataclass___eq__] below. *)
Definition __eq__ (ga : reader) (self : loc) (other : loc) : M bool :=
  let* c := type_of self in
  let* c' := type_of other in
  if negb (bool_decide (c = c')) then ret false
  else
    let* a := ga self "dtstart" in
    let* b := ga other "dtstart" in
    if negb (py_eq a b) then ret false
    else
      let* a := ga self "ending" in
      let* b := ga other "ending" in
      if negb (py_eq a b) then ret false
      else
        let* a := ga self "summary" in
        let* b := ga other "summary" in
        if negb (py_eq a b) then ret false
        else
          let* a := ga self "comment" in
          let* b := ga other "comment" in
          ret (py_eq a b).

(** *** [VJournal], [VRecurringJournal]: the methods of [@dataclass] *)

(** The fields of the dataclass [VJournal], in the order of their
    declaration; [VRecurringJournal] declares none of its own. *)
Definition VJournal_fields : list string :=
  ["ical_class"; "created"; "last_modified"; "organizer"; "sequence"; "status";
   "url"; "recurrence_id";
   "attach"; "attendee"; "categories"; "contact"; "description"; "related";
   "rstatus"].

(** [(x.f1, ..., x.fn)]: the fields are read from left to right. *)
Fixpoint read_fields (ga : reader) (x : loc) (fields : list string) : M (list value) :=
  match fields with
  | [] => ret []
  | f :: fields' =>
      let* v := ga x f in
      let* vs := read_fields ga x fields' in
      ret (v :: vs)
  end.

(** [t == t'] for two tuples: the same length and equal items. *)
Fixpoint py_eq_items (xs ys : list value) : bool :=
  match xs, ys with
  | [], [] => true
  | x :: xs', y :: ys' => py_eq x y && py_eq_items xs' ys'
  | _, _ => false
  end.

(** The [__eq__] that [@dataclass(repr=False)] adds to [VJournal] and to
    [VRecurringJournal]: neither class defines an [__eq__] and [eq] is true by
    default.  It answers [NotImplemented] ([None] here) unless the two objects
    are of one class, and compares the tuples of their fields otherwise:
    [if other.__class__ is self.__class__:
       return (self.ical_class, ...) == (other.ical_class, ...)
     return NotImplemented]. *)
Definition dataclass___eq__ (ga : reader) (self other : loc) : M (option bool) :=
  let* c' := type_of other in
  let* c := type_of self in
  if bool_decide (c' = c) then
    let* xs := read_fields ga self VJournal_fields in
    let* ys := read_fields ga other VJournal_fields in
    ret (Some (py_eq_items xs ys))
  else ret None.

(** Whether [c'] is a subclass of [c] other than [c]: a recurring class
    derives from its component class. *)
Definition is_proper_subclass (c' c : class) : bool :=
  is_recurring c' && negb (is_recurring c) && bool_decide (component_class c' = c).

(** [a == b] for two objects of the classes of [v_journal.py]: [a.__eq__(b)]
    and, when that is [NotImplemented], the reflected [b.__eq__(a)]; the
    reflected call comes first when the class of [b] is a proper subclass of
    the class of [a].  When both are [NotImplemented] the objects are equal
    when they are one object. *)
Definition py_equals (ga : reader) (a b : loc) : M bool :=
  let* ca := type_of a in
  let* cb := type_of b in
  let first := if is_proper_subclass cb ca then (b, a) else (a, b) in
  let* r := dataclass___eq__ ga first.1 first.2 in
  match r with
  | Some v => ret v
  | None =>
      let* r' := dataclass___eq__ ga first.2 first.1 in
      match r' with
      | Some v => ret v
      | None => ret (bool_decide (a = b))
      end
  end.

(** Modelled from the spec: [base_classes/component.py] is not among the
    sources.  Spec 3: an entity is "owned by an optional parent entity (...
    child holds a non-owning back-reference to parent)"; as in [Property], the
    [parent] property returns the private field. *)
Definition Component_parent (ga : reader) (self : loc) : M value :=
  ga self "_parent".

(** *** [AbstractRecurringComponentWithDuration] *)

Definition recurring_start (ga : reader) (self : loc) : M value :=
  ga self "_start".

Definition recurring_end (ga : reader) (self : loc) : M value :=
  ga self "_end".

Definition original (ga : reader) (self : loc) : M value :=
  ga self "_original".

Definition recurring_parent (ga : reader) (self : loc) : M value :=
  let* o := ga self "_original" in
  getattr_of ga o "parent".

(** *** Attribute lookup on the class *)

(** The properties of [AbstractRecurringComponentWithDuration]. *)
Definition recurring_properties : list (string * (reader → loc → M value)) :=
  [("start", recurring_start); ("end", recurring_end);
   ("original", original); ("parent", recurring_parent)].

(** The properties of a component class and of its bases. *)
Definition component_properties (c : class) : list (string * (reader → loc → M value)) :=
  [("ending", ending c);
   ("dtstamp", dtstamp); ("uid", uid); ("timespan", timespan);
   ("start", start); ("end", end_); ("computed_duration", computed_duration);
   ("parent", Component_parent)].

(** The property [name] resolves to along the method resolution order of
    [c]: the recurring base comes before the component class. *)
Definition lookup_property (c : class) (name : string) : option (reader → loc → M value) :=
  match (if is_recurring c then assoc name recurring_properties else None) with
  | Some getter => Some getter
  | None => assoc name (component_properties c)
  end.

(** The setters of the properties that have one. *)
Definition property_setters : list (string * (writer → loc → value → M unit)) :=
  [("dtstamp", dtstamp_setter); ("uid", uid_setter)].

(** The methods the sources define. *)
Definition methods : list string :=
  ["get_duration"; "expand_component_in_range"; "get_property_ical_names";
   "__eq__"; "__repr__"; "__init__"; "__getattribute__"; "__setattr__"].

(** [object.__getattribute__(target, name)]: a property of the class first,
    the instance dictionary second, a method of the class last. *)
Definition object_getattribute (ga : reader) (target : loc) (name : string) : M value :=
  let* o := load target in
  match lookup_property (obj_class o) name with
  | Some getter => getter ga target
  | None =>
      match obj_dict o !! name with
      | Some v => ret v
      | None =>
          if name_in name methods then ret (VMethod target name)
          else raise (AttributeError name)
      end
  end.

(** [object.__getattribute__(v, name)] for a value that may not be a
    component. *)
Definition object_getattribute_of (ga : reader) (v : value) (name : string) : M value :=
  match v with
  | VRef l => object_getattribute ga l name
  | _ => raise (AttributeError name)
  end.

(** [object.__setattr__(self, key, v)]: a property of the class is set through
    its setter and cannot be set when it has none; any other name is stored in
    the instance dictionary. *)
Definition object_setattr (sa : writer) (self : loc) (key : string) (v : value) : M unit :=
  let* o := load self in
  match lookup_property (obj_class o) key with
  | Some _ =>
      match assoc key property_setters with
      | Some setter => setter sa self v
      | None => raise (AttributeError key)
      end
  | None => store_field self key v
  end.

(** The two tuples of names in
    [AbstractRecurringComponentWithDuration.__getattribute__]: the attributes
    an occurrence reads on itself, and the private attributes it reads on its
    original. *)
Definition own_attributes : list string :=
  ["_start"; "_end"; "_original"; "_parent"; "start"; "end"; "original"; "parent"].

Definition original_private_attributes : list string :=
  ["_name"; "_extra_child_components"; "_extra_properties"].

Section Components.

(** What [base_classes/component.py], [ical_utils/property_utils.py] and
    the parser provide; none of them is among the sources.

    - [get_property_ical_names c]: the result of the class method
      [Component.get_property_ical_names] on the class [c];
    - [Component___setattr__]: the custom [__setattr__] of [Component];
    - [property_utils_expand_component_in_range]: the iterator over the
      (start, end) pairs of the recurrences, with its [next]. *)
Variable get_property_ical_names : class → list string.
Variable Component___setattr__ : loc → string → value → M unit.
Variable Iter : Type.
Variable property_utils_expand_component_in_range :
  ∀ (exdate_list rdate_list rrule first_event_start first_event_duration
     return_range make_tz_aware : value), Iter.
Variable iter_next : Iter → res (option (value * value * Iter)).

(** [v.get_property_ical_names()] *)
Definition property_ical_names_of (v : value) : M (list string) :=
  match v with
  | VRef l => let* c := type_of l in ret (get_property_ical_names c)
  | _ => raise (AttributeError "get_property_ical_names")
  end.

(** [AbstractRecurringComponentWithDuration.__getattribute__] *)
Definition __getattribute__ (ga : reader) (self : loc) (name : string) : M value :=
  if name_in name own_attributes then
    object_getattribute ga self name
  else if name_in name original_private_attributes then
    let* o := ga self "_original" in
    object_getattribute_of ga o name
  else
    let* o := ga self "_original" in
    let* names := property_ical_names_of o in
    if name_in name names then
      let* o' := ga self "_original" in
      object_getattribute_of ga o' name
    else object_getattribute ga self name.

(** [AbstractRecurringComponentWithDuration.__setattr__] *)
Definition __setattr__ (sa : writer) (self : loc) (key : string) (v : value) : M unit :=
  object_setattr sa self key v.

(** One attribute read, [x.name], given how the reads inside it are done:
    the recurring classes override [__getattribute__], the component classes
    inherit the one of [object]. *)
Definition getattr_body (ga : reader) (self : loc) (name : string) : M value :=
  let* c := type_of self in
  if is_recurring c then __getattribute__ ga self name
  else object_getattribute ga self name.

(** Attribute reads nest (a property reads other attributes); the
    interpreter bounds the nesting and raises [RecursionError] beyond it. *)
Fixpoint getattr (depth : nat) (self : loc) (name : string) : M value :=
  match depth with
  | O => raise RecursionError
  | S depth' => getattr_body (getattr depth') self name
  end.

(** One attribute write, [x.key = v]. *)
Definition setattr_body (sa : writer) (self : loc) (key : string) (v : value) : M unit :=
  let* c := type_of self in
  if is_recurring c then __setattr__ sa self key v
  else Component___setattr__ self key v.

Fixpoint setattr (depth : nat) (self : loc) (key : string) (v : value) : M unit :=
  match depth with
  | O => raise RecursionError
  | S depth' => setattr_body (setattr depth') self key v
  end.

(** *** Constructors *)

(** Modelled from the spec: [base_classes/component.py] is not among the
    sources.  [Component.__init__(name, parent)] keeps the name and the
    back-reference to the parent (spec 3). *)
Definition Component___init__ (sa : writer) (self : loc) (name parent : value) : M unit :=
  let* _ := sa self "_name" name in
  sa self "_parent" parent.

(** [AbstractComponentWithDuration.__init__].  The parameter [name] has no
    default: a call that gives no argument for it ([None] here) raises
    [TypeError] before the body runs.  The other parameters default to
    [None]. *)
Definition AbstractComponentWithDuration___init__ (sa : writer) (self : loc)
    (name : option value)
    (dtstamp uid dtstart rrule summary exdate rdate comment parent : value) : M unit :=
  match name with
  | None => raise TypeError
  | Some name =>
      let* _ := Component___init__ sa self name parent in
      let* _ := sa self "_dtstamp" dtstamp in
      let* _ := sa self "_uid" uid in
      let* _ := sa self "dtstart" dtstart in
      let* _ := sa self "rrule" rrule in
      let* _ := sa self "summary" summary in
      let* _ := sa self "exdate" exdate in
      let* _ := sa self "rdate" rdate in
      sa self "comment" comment
  end.

(** [VRecurringJournal.__init__].  [super(VJournal, self).__init__()] is the
    initialiser of the class after [VJournal] in the method resolution order
    of [VRecurringJournal], [AbstractComponentWithDuration.__init__], called
    without arguments. *)
Definition VRecurringJournal___init__ (sa : writer) (self : loc)
    (original_component_instance start end_ : value) : M unit :=
  let* _ := AbstractComponentWithDuration___init__ sa self None
              VNone VNone VNone VNone VNone VNone VNone VNone VNone in
  let* _ := sa self "_parent" original_component_instance in
  let* _ := sa self "_original" original_component_instance in
  let* _ := sa self "_start" start in
  sa self "_end" end_.

(** [VRecurringJournal(original_component_instance, start, end)] *)
Definition VRecurringJournal_new (depth : nat)
    (original_component_instance start end_ : value) : M value :=
  let* self := alloc VRecurringJournal in
  let* _ := VRecurringJournal___init__ (setattr depth) self
              original_component_instance start end_ in
  ret (VRef self).

(** *** [VJournal.expand_component_in_range] *)

(** [a or b] *)
Definition py_or (a b : value) : value := if truthy a then a else b.

(** The generator object: where its body is suspended. *)
Inductive expansion :=
| Created (self : loc) (return_range : value)
| AtFirstYield (self : loc) (return_range : value)
| InLoop (self : loc) (iterator : Iter)
| Finished.

(** Calling the generator function runs none of its body. *)
Definition expand_component_in_range (self : loc) (return_range : value) : expansion :=
  Created self return_range.

(** The [for] loop, from the top of an iteration to its [yield]. *)
Definition expansion_loop (depth : nat) (self : loc) (iterator : Iter)
  : M (option value * expansion) :=
  match iter_next iterator with
  | Raise e => raise e
  | Ok None => ret (None, Finished)
  | Ok (Some (event_start_time, event_end_time, iterator')) =>
      let* occurrence :=
        VRecurringJournal_new depth (VRef self) event_start_time event_end_time in
      ret (Some occurrence, InLoop self iterator')
  end.

(** [next(generator)]: the yielded value, or [None] at the end
    ([StopIteration]), and the generator as it is afterwards. *)
Definition next (depth : nat) (g : expansion) : M (option value * expansion) :=
  match g with
  | Created self return_range =>
      ret (Some (VRef self), AtFirstYield self return_range)
  | AtFirstYield self return_range =>
      let* exdate := getattr depth self "exdate" in
      let* rdate := getattr depth self "rdate" in
      let* rrule := getattr depth self "rrule" in
      let* first_event_start := getattr depth self "start" in
      let* first_event_duration := getattr depth self "computed_duration" in
      let iterator :=
        property_utils_expand_component_in_range
          (py_or exdate (VList [])) (py_or rdate (VList [])) rrule
          first_event_start first_event_duration return_range VNone in
      expansion_loop depth self iterator
  | InLoop self iterator => expansion_loop depth self iterator
  | Finished => ret (None, Finished)
  end.

(** The first [n] elements of the sequence a generator produces; fewer when
    it ends before. *)
Fixpoint take_from (depth : nat) (n : nat) (g : expansion) : M (list value) :=
  match n with
  | O => ret []
  | S n' =>
      let* step := next depth g in
      match step with
      | (None, _) => ret []
      | (Some v, g') =>
          let* vs := take_from depth n' g' in
          ret (v :: vs)
      end
  end.

End Components.

(** ** What the properties of a component return *)

(** The values below are those the properties of a component (an object of a
    class that is not recurring) return, as functions of the object alone: of
    its class, of its instance dictionary, and of what is memoized on it. *)

Definition res_bind {A B : Type} (r : res A) (k : A → res B) : res B :=
  match r with
  | Ok a => k a
  | Raise e => Raise e
  end.

(** An attribute that is no property of the class. *)
Definition field_of (self : loc) (o : object) (name : string) : res value :=
  match obj_dict o !! name with
  | Some v => Ok v
  | None =>
      if name_in name methods then Ok (VMethod self name)
      else Raise (AttributeError name)
  end.

(** The field [ending] reads. *)
Definition ending_field (c : class) : string :=
  match component_class c with
  | VEvent => "dtend"
  | VToDo => "due"
  | _ => "dtstart"
  end.

Definition ending_of (self : loc) (o : object) : res value :=
  field_of self o (ending_field (obj_class o)).

Definition duration_of (self : loc) (o : object) : res value :=
  match component_class (obj_class o) with
  | VEvent | VToDo => field_of self o "duration"
  | _ => Ok (VDuration 0)
  end.

(** The memoized value of [slot] when there is one, and [computed]
    otherwise. *)
Definition memoized (o : object) (slot : string) (computed : res value) : res value :=
  match obj_cache o !! slot with
  | Some v => Ok v
  | None => computed
  end.

(** What the body of [start] computes. *)
Definition start_computed (self : loc) (o : object) : res value :=
  res_bind (field_of self o "dtstart") (λ d,
    if truthy d then datetime_or_date_value d else Ok VNone).

Definition start_of (self : loc) (o : object) : res value :=
  memoized o "start" (start_computed self o).

(** What the body of [end] computes, given what [self.start] returns. *)
Definition end_computed (self : loc) (o : object) (start : res value) : res value :=
  res_bind (ending_of self o) (λ e,
    if truthy e then datetime_or_date_value e
    else
      res_bind start (λ s,
        if truthy s then
          res_bind (duration_of self o) (λ d,
            if truthy d then py_add s d else Ok VNone)
        else Ok VNone)).

Definition end_of (self : loc) (o : object) : res value :=
  memoized o "end" (end_computed self o (start_of self o)).

(** What the body of [computed_duration] computes, given what [self.end] and
    [self.start] return. *)
Definition computed_duration_computed (self : loc) (o : object)
    (end_ start : res value) : res value :=
  res_bind (duration_of self o) (λ a_duration,
    if truthy a_duration then Ok a_duration
    else
      res_bind end_ (λ e,
        if truthy e then
          res_bind start (λ s,
            if truthy s then py_sub e s else Ok VNone)
        else Ok VNone)).

Definition computed_duration_of (self : loc) (o : object) : res value :=
  memoized o "computed_duration"
    (computed_duration_computed self o (end_of self o) (start_of self o)).

(** [o'] is [o] with more values memoized, each of them the value the
    property returned on [o]. *)
Definition same_values (self : loc) (o o' : object) : Prop :=
  obj_class o' = obj_class o
  ∧ obj_dict o' = obj_dict o
  ∧ start_of self o' = start_of self o
  ∧ end_of self o' = end_of self o
  ∧ computed_duration_of self o' = computed_duration_of self o.

(** The store [h'] is the store [h] after reads on the component [o] at
    [self]: the reads have memoized values on it and changed nothing else. *)
Definition reached (self : loc) (o : object) (h h' : heap) : Prop :=
  ∃ o', h' = <[self := o']> h ∧ same_values self o o'.

(** ** Occurrences and their originals *)

(** In the store [h], [self] is an occurrence [o] whose original is the
    component [m], an object [om] of the component class of [o]. *)
Definition occurrence_of (h : heap) (self m : loc) (o om : object) : Prop :=
  h !! self = Some o
  ∧ is_recurring (obj_class o) = true
  ∧ obj_dict o !! "_original" = Some (VRef m)
  ∧ h !! m = Some om
  ∧ obj_class om = component_class (obj_class o).

(** The values of the fields [fields] in the instance dictionary of [o],
    when it has them all. *)
Fixpoint field_values (o : object) (fields : list string) : option (list value) :=
  match fields with
  | [] => Some []
  | f :: fields' =>
      match obj_dict o !! f, field_values o fields' with
      | Some v, Some vs => Some (v :: vs)
      | _, _ => None
      end
  end.

(** ** The tokens of a sub-properties string *)

(** [sep.join(pieces)] for a one-character [sep]. *)
Fixpoint str_join (pieces : list string) (sep : ascii) : string :=
  match pieces with
  | [] => ""
  | [piece] => piece
  | piece :: pieces' => piece ++ String sep (str_join pieces' sep)
  end.

(** [tokens] are the tokens of the string [s] between its [';']: they
    contain no [';'] and [s] is made of them, one [';'] between two. *)
Definition tokens_of (s : string) (tokens : list string) : Prop :=
  str_join tokens ";" = s
  ∧ tokens ≠ []
  ∧ Forall (λ token, str_count token ";" = 0%nat) tokens.

(** Among [tokens], the last token [key=...] with exactly one ['='] is
    [key=v]. *)
Definition last_entry (tokens : list string) (key v : string) : Prop :=
  ∃ before after,
    tokens = (before ++ (key ++ String "=" v)%string :: after)%list
    ∧ str_count key "=" = 0%nat
    ∧ str_count v "=" = 0%nat
    ∧ ∀ v', str_count v' "=" = 0%nat → key ++ String "=" v' ∉ after.

(** ** What one token of a sub-properties string adds to the dictionary *)

Definition token_entry (token : string) : option (string * string) :=
  if Nat.eqb (str_count token "=") 1 then
    match str_split token "=" with
    | [k; v] => Some (k, v)
    | _ => None
    end
  else None.

Definition add_token (acc : gmap string string) (token : string) : gmap string string :=
  match token_entry token with
  | Some (k, v) => <[k := v]> acc
  | None => acc
  end.

(** ** Example components *)

(** The attribute names that hold properties: the parameters of
    [AbstractComponentWithDuration.__init__] and the fields of [VJournal]
    that are annotated with a property class, and the end, due and duration
    properties of events and to-dos. *)
Definition example_property_ical_names (c : class) : list string :=
  ["dtstamp"; "uid"; "dtstart"; "rrule"; "summary"; "exdate"; "rdate"; "comment"]
  ++ match component_class c with
     | VEvent => ["dtend"; "duration"]
     | VToDo => ["due"; "duration"]
     | _ => ["ical_class"; "created"; "last_modified"; "organizer"; "sequence";
             "status"; "url"; "recurrence_id"; "attach"; "attendee"; "categories";
             "contact"; "description"; "related"; "rstatus"]
     end.

(** A [__setattr__] for components that stores the value. *)
Definition example_Component___setattr__ (self : loc) (key : string) (v : value) : M unit :=
  store_field self key v.

(** An example property object.  Its identity is made of its owner, its name
    and its text: two example properties are one object exactly when these
    agree. *)
Definition example_property (owner : loc) (name text : string) : Property :=
  {| _parent := owner; _name := name; _sub_properties := None; _value := Some text;
     address := encode (owner, name, text) |}.

(** The fields of the dataclass [VJournal], all [None] but the
    description. *)
Definition example_journal_fields (description : value) : list (string * value) :=
  [("ical_class", VNone); ("created", VNone); ("last_modified", VNone);
   ("organizer", VNone); ("sequence", VNone); ("status", VNone); ("url", VNone);
   ("recurrence_id", VNone); ("attach", VNone); ("attendee", VNone);
   ("categories", VNone); ("contact", VNone); ("description", description);
   ("related", VNone); ("rstatus", VNone)].

(** A component with the fields [AbstractComponentWithDuration.__init__]
    sets, and more. *)
Definition example_component (c : class) (name : string)
    (dtstamp uid dtstart summary : value) (more : list (string * value)) : object :=
  {| obj_class := c;
     obj_dict := list_to_map
       ([("_name", VStr name); ("_parent", VNone);
         ("_dtstamp", dtstamp); ("_uid", uid); ("dtstart", dtstart);
         ("rrule", VNone); ("summary", summary);
         ("exdate", VNone); ("rdate", VNone); ("comment", VNone)] ++ more);
     obj_cache := ∅ |}.

(** A journal that starts at 100, with a UID and without a DTSTAMP. *)
Definition example_journal : object :=
  example_component VJournal "VJOURNAL"
    VNone (VProp (example_property 1%positive "UID" "journal-1"))
    (VDT (example_property 1%positive "DTSTART" "100") 100)
    (VProp (example_property 1%positive "SUMMARY" "Notes"))
    (example_journal_fields VNone).

Definition example_journal_heap : gmap loc object := {[ 1%positive := example_journal ]}.

(** An occurrence of the component at [m]. *)
Definition example_occurrence_of_component (m : loc) (start end_ : Z) : object :=
  {| obj_class := VRecurringJournal;
     obj_dict := list_to_map
       [("_name", VStr "VJOURNAL"); ("_parent", VRef m);
        ("_dtstamp", VNone); ("_uid", VNone); ("dtstart", VNone);
        ("rrule", VNone); ("summary", VNone);
        ("exdate", VNone); ("rdate", VNone); ("comment", VNone);
        ("_original", VRef m);
        ("_start", VDate start); ("_end", VDate end_)];
     obj_cache := ∅ |}.

(** Two occurrences of the journal, at 500 and at 900. *)
Definition example_occurrence (start end_ : Z) : object :=
  example_occurrence_of_component 1%positive start end_.

Definition example_occurrences_heap : gmap loc object :=
  <[3%positive := example_occurrence 900 900]>
    (<[2%positive := example_occurrence 500 500]> example_journal_heap).

(** An event with the given start, end and duration. *)
Definition example_event (dtstart dtend duration : value) : object :=
  example_component VEvent "VEVENT"
    (VProp (example_property 1%positive "DTSTAMP" "1"))
    (VProp (example_property 1%positive "UID" "event-1"))
    dtstart (VProp (example_property 1%positive "SUMMARY" "Meeting"))
    [("dtend", dtend); ("duration", duration)].

Definition example_event_heap (dtstart dtend duration : value) : gmap loc object :=
  {[ 1%positive := example_event dtstart dtend duration ]}.

Definition example_dtstart : value :=
  VDT (example_property 1%positive "DTSTART" "100") 100.

Definition example_dtend : value :=
  VDT (example_property 1%positive "DTEND" "200") 200.

(** ** [Property]: the other methods *)

(** [Property.has_sub_property]: [key in self.sub_properties] *)
Definition has_sub_property (self : Property) (key : string) : res bool :=
  res_bind (sub_properties self) (λ d,
    Ok (match d !! key with Some _ => true | None => false end)).

(** [Property.get_sub_property]: [self.sub_properties.get(key, default)] *)
Definition get_sub_property (self : Property) (key : string) (default : option string)
  : res (option string) :=
  res_bind (sub_properties self) (λ d,
    Ok (match d !! key with Some v => Some v | None => default end)).

(** [Property.get_sub_property_default] *)
Definition get_sub_property_default (self : Property) (key : string) (default : string)
  : res string :=
  res_bind (sub_properties self) (λ d,
    Ok (match d !! key with Some v => v | None => default end)).

(** [s.lstrip(c)] for a one-character [c]. *)
Fixpoint str_lstrip (s : string) (c : ascii) : string :=
  match s with
  | EmptyString => EmptyString
  | String a s' => if Ascii.eqb a c then str_lstrip s' c else s
  end.

(** [s.rstrip(c)] for a one-character [c]. *)
Fixpoint str_rstrip (s : string) (c : ascii) : string :=
  match s with
  | EmptyString => EmptyString
  | String a s' =>
      match str_rstrip s' c with
      | EmptyString => if Ascii.eqb a c then EmptyString else String a EmptyString
      | rest => String a rest
      end
  end.

(** [s.strip(c)] for a one-character [c]. *)
Definition str_strip (s : string) (c : ascii) : string :=
  str_lstrip (str_rstrip s c) c.

(** An optional string inside an f-string: [None] is written [None]. *)
Definition format_optional (s : option string) : string :=
  match s with
  | None => "None"
  | Some s' => s'
  end.

(** [Property.as_original_string] *)
Definition as_original_string (self : Property) : string :=
  let add_subs :=
    match _sub_properties self with
    | Some s => if String.eqb s "" then "" else String ";" (str_strip s ";")
    | None => ""
    end in
  _name self ++ add_subs ++ String ":" (format_optional (_value self)).

(** ** [__repr__] *)

Section Repr.

(** [str(v)] for an instant or [None], as an f-string writes it; the
    formatting of instants belongs to [pendulum]. *)
Variable str_of : value → string.

(** [p.value] of a property object. *)
Definition property_value (v : value) : res (option string) :=
  match v with
  | VProp p => Ok (_value p)
  | VDT p _ => Ok (_value p)
  | VD p _ => Ok (_value p)
  | _ => Raise (AttributeError "value")
  end.

(** [VJournal.__repr__] *)
Definition VJournal___repr__ (ga : reader) (self : loc) : M string :=
  let* s := ga self "start" in
  let* summary := ga self "summary" in
  let* text := lift (property_value summary) in
  ret ("VJournal(" ++ str_of s ++ ": " ++ format_optional text ++ ")").

(** [VRecurringJournal.__repr__] *)
Definition VRecurringJournal___repr__ (ga : reader) (self : loc) : M string :=
  let* s := ga self "_start" in
  let* o := ga self "original" in
  let* summary := getattr_of ga o "summary" in
  let* text := lift (property_value summary) in
  ret ("RVJournal(" ++ str_of s ++ ": " ++ format_optional text ++ ")").

End Repr.

(** ** More example values *)

Definition example_parameters : Property :=
  {| _parent := 1%positive; _name := "DTSTART";
     _sub_properties := Some ";TZID=Europe/Amsterdam;VALUE=DATE-TIME;X;A=B=C;TZID=UTC;";
     _value := Some "20240101T100000"; address := 1%positive |}.

(** The tokens of its sub-properties. *)
Definition example_tokens : list string :=
  [""; "TZID=Europe/Amsterdam"; "VALUE=DATE-TIME"; "X"; "A=B=C"; "TZID=UTC"; ""].

(** Its sub-properties. *)
Definition example_dictionary : gmap string string :=
  {[ "TZID" := "UTC"; "VALUE" := "DATE-TIME" ]}.

(** A start that is a date, the tenth day after 0001-01-01, and a duration
    of one hour. *)
Definition example_date_start : value :=
  VD (example_property 1%positive "DTSTART" "00010111") 10.

Definition example_hour : value := VDuration 3600000000.

(** An iterator over a list of pairs. *)
Definition example_iter_next (pairs : list (value * value))
  : res (option (value * value * list (value * value))) :=
  match pairs with
  | [] => Ok None
  | (s, e) :: pairs' => Ok (Some (s, e, pairs'))
  end.

(** An expansion that yields two pairs, at 500 and at 900, whatever it is
    given. *)
Definition example_expand
    (exdate_list rdate_list rrule first_event_start first_event_duration
     return_range make_tz_aware : value) : list (value * value) :=
  [(VDate 500, VDate 500); (VDate 900, VDate 900)].

(** A rendering of instants that tells [None] from an instant. *)
Definition example_str_of (v : value) : string :=
  match v with
  | VNone => "None"
  | _ => "instant"
  end.

(** An expansion that yields nothing. *)
Definition example_expand_nothing
    (exdate_list rdate_list rrule first_event_start first_event_duration
     return_range make_tz_aware : value) : list (value * value) :=
  [].

(** The pairs of [example_expand]. *)
Definition example_pairs : list (value * value) :=
  [(VDate 500, VDate 500); (VDate 900, VDate 900)].

(** ** More example components *)

(** A second journal, which starts at 300; the fields of the dataclass are
    [None] on it as on the first. *)
Definition example_second_journal : object :=
  example_component VJournal "VJOURNAL"
    VNone (VProp (example_property 4%positive "UID" "journal-2"))
    (VDT (example_property 4%positive "DTSTART" "300") 300)
    (VProp (example_property 4%positive "SUMMARY" "Other"))
    (example_journal_fields VNone).

(** Another property object with the fields of [p]. *)
Definition example_copy (p : Property) : Property :=
  {| _parent := _parent p; _name := _name p; _sub_properties := _sub_properties p;
     _value := _value p; address := (address p)~1 |}.

(** A journal like the first, with the description [description]. *)
Definition example_described_journal (description : Property) : object :=
  example_component VJournal "VJOURNAL"
    VNone (VProp (example_property 1%positive "UID" "journal-1"))
    (VDT (example_property 1%positive "DTSTART" "100") 100)
    (VProp (example_property 1%positive "SUMMARY" "Notes"))
    (example_journal_fields (VList [description])).

Definition example_description : Property :=
  example_property 6%positive "DESCRIPTION" "Minutes".

(** The journal of above at 1 and its occurrences at 2 and 3; the second
    journal at 4 and an occurrence of it at 5; at 6 and 7 two journals whose
    descriptions are two property objects with the same fields. *)
Definition example_journals_heap : gmap loc object :=
  <[7%positive := example_described_journal (example_copy example_description)]>
    (<[6%positive := example_described_journal example_description]>
       (<[5%positive := example_occurrence_of_component 4%positive 500 500]>
          (<[4%positive := example_second_journal]> example_occurrences_heap))).

(** * Statements *)

(** ** Facts about strings *)

Lemma str_split_nonempty (s : string) (c : ascii) : str_split s c ≠ [].
Proof.
  destruct s as [|a s]; simpl; [done|].
  destruct (Ascii.eqb a c); [done|].
  by destruct (str_split s c).
Qed.

Lemma str_split_length (s : string) (c : ascii) :
  List.length (str_split s c) = S (str_count s c).
Proof.
  induction s as [|a s IH]; simpl; [done|].
  destruct (Ascii.eqb a c); simpl; [by rewrite IH|].
  destruct (str_split s c); simpl in *; lia.
Qed.

Lemma str_split_pieces (s : string) (c : ascii) (piece : string) :
  piece ∈ str_split s c → str_count piece c = 0%nat.
Proof.
  revert piece. induction s as [|a s IH]; simpl; intros piece Hin.
  - apply list_elem_of_singleton in Hin as ->. done.
  - destruct (Ascii.eqb a c) eqn:Hac.
    + apply elem_of_cons in Hin as [->|Hin]; [done|by apply IH].
    + destruct (str_split s c) as [|p ps] eqn:Hsplit.
      * by destruct (str_split_nonempty s c).
      * apply elem_of_cons in Hin as [->|Hin].
        -- simpl. rewrite Hac. apply IH. by left.
        -- apply IH. by right.
Qed.

Lemma str_split_one (s : string) (c : ascii) (piece : string) :
  str_split s c = [piece] → s = piece.
Proof.
  revert piece. induction s as [|a s IH]; simpl; intros piece Hsplit.
  - by simplify_eq.
  - destruct (Ascii.eqb a c).
    + injection Hsplit as _ Hnil. by destruct (str_split_nonempty s c).
    + destruct (str_split s c) as [|p ps] eqn:Hs.
      * by destruct (str_split_nonempty s c).
      * injection Hsplit as <- ->. f_equal. by apply IH.
Qed.

(** A string with exactly one separator splits into the two sides of it. *)
Lemma str_split_two (s : string) (c : ascii) :
  str_count s c = 1%nat →
  ∃ k v, str_split s c = [k; v] ∧ s = k ++ String c v
         ∧ str_count k c = 0%nat ∧ str_count v c = 0%nat.
Proof.
  induction s as [|a s IH]; simpl; [done|].
  destruct (Ascii.eqb a c) eqn:Hac; intros Hcount.
  - apply Ascii.eqb_eq in Hac as ->.
    assert (Hlen := str_split_length s c).
    destruct (str_split s c) as [|v [|? ?]] eqn:Hsplit; simpl in Hlen; try lia.
    exists "", v. split; [done|]. split; [|split; [done|]].
    + change (String c s = String c v). f_equal. by apply (str_split_one s c).
    + apply (str_split_pieces s c). rewrite Hsplit. by left.
  - destruct (IH Hcount) as (k & v & Hsplit & -> & Hk & Hv).
    rewrite Hsplit. exists (String a k), v.
    change (String a k ++ String c v) with (String a (k ++ String c v)).
    simpl. by rewrite Hac.
Qed.

(** ** [Property.sub_properties] *)

Lemma append_nil (s : string) : "" ++ s = s.
Proof. reflexivity. Qed.

Lemma append_cons (a : ascii) (s s' : string) : String a s ++ s' = String a (s ++ s').
Proof. reflexivity. Qed.

Lemma str_count_append_sep (k v : string) (c : ascii) :
  str_count k c = 0%nat → str_count v c = 0%nat → str_count (k ++ String c v) c = 1%nat.
Proof.
  intros Hk Hv. induction k as [|a k IH].
  - rewrite append_nil. simpl. by rewrite Ascii.eqb_refl, Hv.
  - rewrite append_cons. simpl in *. destruct (Ascii.eqb a c); [done|]. by apply IH.
Qed.

Lemma append_sep_inj (k v k' v' : string) (c : ascii) :
  k ++ String c v = k' ++ String c v' →
  str_count k c = 0%nat → str_count k' c = 0%nat → k = k' ∧ v = v'.
Proof.
  revert k'. induction k as [|a k IH]; intros [|a' k'];
    rewrite ?append_nil, ?append_cons; simpl; intros Heq Hk Hk'.
  - by simplify_eq.
  - simplify_eq. by rewrite Ascii.eqb_refl in Hk'.
  - simplify_eq. by rewrite Ascii.eqb_refl in Hk.
  - injection Heq as -> Heq.
    destruct (Ascii.eqb a' c); [done|].
    destruct (IH k' Heq Hk Hk') as [-> ->]. done.
Qed.

Lemma token_entry_Some (token k v : string) :
  token_entry token = Some (k, v) ↔
  token = k ++ String "=" v ∧ str_count k "=" = 0%nat ∧ str_count v "=" = 0%nat.
Proof.
  unfold token_entry. split.
  - destruct (Nat.eqb (str_count token "=") 1) eqn:Hc; [|done].
    apply Nat.eqb_eq in Hc.
    destruct (str_split_two _ _ Hc) as (k' & v' & -> & -> & Hk & Hv).
    by intros [= <- <-].
  - intros (-> & Hk & Hv).
    assert (Hc := str_count_append_sep k v "=" Hk Hv).
    rewrite Hc. simpl.
    destruct (str_split_two _ _ Hc) as (k' & v' & -> & Heq & Hk' & Hv').
    destruct (append_sep_inj _ _ _ _ _ Heq Hk Hk') as [-> ->]. done.
Qed.

Lemma dict_comprehension_foldl (tokens : list string) (acc : gmap string string) :
  dict_comprehension tokens acc = Ok (foldl add_token acc tokens).
Proof.
  revert acc. induction tokens as [|token tokens IH]; intros acc; simpl; [done|].
  unfold add_token at 2, token_entry.
  destruct (Nat.eqb (str_count token "=") 1) eqn:Hc; [|apply IH].
  apply Nat.eqb_eq in Hc.
  destruct (str_split_two _ _ Hc) as (k & v & -> & _). simpl. apply IH.
Qed.

Lemma foldl_add_token_lookup (tokens : list string) (acc : gmap string string) (k v : string) :
  foldl add_token acc tokens !! k = Some v →
  (∃ token, token ∈ tokens ∧ token_entry token = Some (k, v)) ∨ acc !! k = Some v.
Proof.
  revert acc. induction tokens as [|token tokens IH]; intros acc; simpl; [by right|].
  intros Hl. destruct (IH _ Hl) as [(t & Hin & Ht)|Hacc].
  - left. exists t. split; [by right|done].
  - unfold add_token in Hacc.
    destruct (token_entry token) as [[k' v']|] eqn:Ht; [|by right].
    destruct (decide (k' = k)) as [->|Hne].
    + rewrite lookup_insert_eq in Hacc. injection Hacc as ->.
      left. exists token. split; [by left|done].
    + rewrite lookup_insert_ne in Hacc by done. by right.
Qed.

Lemma foldl_add_token_dom (tokens : list string) (acc : gmap string string) (k : string) :
  is_Some (acc !! k) → is_Some (foldl add_token acc tokens !! k).
Proof.
  revert acc. induction tokens as [|token tokens IH]; intros acc; simpl; [done|].
  intros Hacc. apply IH. unfold add_token.
  destruct (token_entry token) as [[k' v']|]; [|done].
  destruct (decide (k' = k)) as [->|Hne].
  - rewrite lookup_insert_eq. eauto.
  - by rewrite lookup_insert_ne.
Qed.

Lemma foldl_add_token_keep (tokens : list string) (acc : gmap string string) (k v : string) :
  acc !! k = Some v →
  (∀ token v', token ∈ tokens → token_entry token ≠ Some (k, v')) →
  foldl add_token acc tokens !! k = Some v.
Proof.
  revert acc. induction tokens as [|token tokens IH]; intros acc; simpl; [done|].
  intros Hacc Hnone. apply IH.
  - unfold add_token. destruct (token_entry token) as [[k' v']|] eqn:Ht; [|done].
    destruct (decide (k' = k)) as [->|Hne].
    + destruct (Hnone token v'); [by left|done].
    + by rewrite lookup_insert_ne.
  - intros t v' Hin. apply Hnone. by right.
Qed.

Lemma str_count_append (s s' : string) (c : ascii) :
  str_count (s ++ s') c = (str_count s c + str_count s' c)%nat.
Proof.
  induction s as [|a s IH]; [done|].
  rewrite append_cons. simpl. rewrite IH. lia.
Qed.

(** *** Splitting and joining *)

Lemma str_join_cons (piece : string) (pieces : list string) (c : ascii) :
  pieces ≠ [] →
  str_join (piece :: pieces) c = piece ++ String c (str_join pieces c).
Proof. by destruct pieces. Qed.

Lemma str_split_cons_eq (a : ascii) (s : string) (c : ascii) :
  str_split (String a s) c
  = if Ascii.eqb a c then EmptyString :: str_split s c
    else match str_split s c with
         | [] => [String a EmptyString]
         | piece :: pieces => String a piece :: pieces
         end.
Proof. reflexivity. Qed.

Lemma str_join_split (s : string) (c : ascii) : str_join (str_split s c) c = s.
Proof.
  induction s as [|a s IH]; [done|].
  rewrite str_split_cons_eq.
  pose proof (str_split_nonempty s c) as Hne.
  destruct (Ascii.eqb a c) eqn:Hac.
  - apply Ascii.eqb_eq in Hac as ->.
    rewrite (str_join_cons _ _ _ Hne), IH. done.
  - destruct (str_split s c) as [|piece pieces]; [done|].
    destruct pieces as [|piece' pieces].
    + simpl in *. by rewrite IH.
    + rewrite str_join_cons in IH by done. rewrite str_join_cons by done.
      rewrite append_cons. by rewrite IH.
Qed.

Lemma str_split_no_sep (piece : string) (c : ascii) :
  str_count piece c = 0%nat → str_split piece c = [piece].
Proof.
  induction piece as [|a piece IH]; [done|]. simpl.
  destruct (Ascii.eqb a c); [done|]. intros Hc. by rewrite (IH Hc).
Qed.

Lemma str_split_append_sep (piece s : string) (c : ascii) :
  str_count piece c = 0%nat →
  str_split (piece ++ String c s) c = piece :: str_split s c.
Proof.
  induction piece as [|a piece IH].
  - intros _. rewrite append_nil. simpl. by rewrite Ascii.eqb_refl.
  - rewrite append_cons. simpl. destruct (Ascii.eqb a c); [done|].
    intros Hc. by rewrite (IH Hc).
Qed.

Lemma str_split_join (pieces : list string) (c : ascii) :
  pieces ≠ [] →
  Forall (λ piece, str_count piece c = 0%nat) pieces →
  str_split (str_join pieces c) c = pieces.
Proof.
  induction pieces as [|piece pieces IH]; [done|]. intros _ Hall.
  apply Forall_cons in Hall as [Hpiece Hall].
  destruct pieces as [|piece' pieces].
  - by apply str_split_no_sep.
  - rewrite str_join_cons by done.
    rewrite (str_split_append_sep _ _ _ Hpiece). by rewrite IH.
Qed.

(** The tokens of a string are those [split] returns, and no others. *)
Lemma tokens_of_split (s : string) : tokens_of s (str_split s ";").
Proof.
  split; [apply str_join_split|]. split; [apply str_split_nonempty|].
  apply Forall_forall. intros token. apply str_split_pieces.
Qed.

Lemma tokens_of_unique (s : string) (tokens : list string) :
  tokens_of s tokens → tokens = str_split s ";".
Proof. intros (<- & Hne & Hall). by rewrite str_split_join. Qed.

(** *** The entry of a key *)

Lemma lookup_foldl_add_token_last (before after : list string) (key v : string) :
  str_count key "=" = 0%nat →
  str_count v "=" = 0%nat →
  (∀ v', str_count v' "=" = 0%nat → key ++ String "=" v' ∉ after) →
  foldl add_token ∅ (before ++ (key ++ String "=" v)%string :: after)%list !! key = Some v.
Proof.
  intros Hk Hv Hlast. rewrite foldl_app. simpl. apply foldl_add_token_keep.
  - unfold add_token.
    assert (Ht : token_entry (key ++ String "=" v) = Some (key, v))
      by (by apply token_entry_Some).
    rewrite Ht. apply lookup_insert_eq.
  - intros t v' Hin Ht. apply token_entry_Some in Ht as (-> & _ & Hv').
    by apply (Hlast v').
Qed.

Lemma foldl_add_token_last_entry (tokens : list string) (acc : gmap string string)
    (key v : string) :
  foldl add_token acc tokens !! key = Some v →
  last_entry tokens key v
  ∨ (acc !! key = Some v
     ∧ ∀ token v', token ∈ tokens → token_entry token ≠ Some (key, v')).
Proof.
  revert acc. induction tokens as [|token tokens IH]; intros acc; simpl.
  - intros Hacc. right. split; [done|]. by intros token v' Hin%elem_of_nil.
  - intros Hl. destruct (IH _ Hl) as [(before & after & -> & Hk & Hv & Hlast)|[Hacc Hnone]].
    + left. exists (token :: before), after. done.
    + unfold add_token in Hacc.
      destruct (token_entry token) as [[k' v']|] eqn:Ht.
      * destruct (decide (k' = key)) as [->|Hne].
        -- rewrite lookup_insert_eq in Hacc. injection Hacc as ->.
           apply token_entry_Some in Ht as (-> & Hk & Hv).
           left. exists [], tokens. repeat split; try done.
           intros v' Hv' Hin. apply (Hnone _ v' Hin). by apply token_entry_Some.
        -- rewrite lookup_insert_ne in Hacc by done. right. split; [done|].
           intros t v'' [->|Hin]%elem_of_cons; [congruence|by apply Hnone].
      * right. split; [done|].
        intros t v'' [->|Hin]%elem_of_cons; [congruence|by apply Hnone].
Qed.

(** The dictionary of the tokens has the entry [key ↦ v] exactly when the
    last token for [key] is [key=v]. *)
Lemma lookup_foldl_add_token (tokens : list string) (key v : string) :
  foldl add_token ∅ tokens !! key = Some v ↔ last_entry tokens key v.
Proof.
  split.
  - intros Hl. by destruct (foldl_add_token_last_entry _ _ _ _ Hl) as [?|[? _]].
  - intros (before & after & -> & Hk & Hv & Hlast).
    by apply lookup_foldl_add_token_last.
Qed.

Lemma sub_properties_foldl (self : Property) :
  sub_properties self = Ok (foldl add_token ∅ (sub_property_tokens self)).
Proof. apply dict_comprehension_foldl. Qed.

Lemma sub_property_tokens_of (self : Property) :
  tokens_of (match _sub_properties self with Some s => s | None => "" end)
    (sub_property_tokens self).
Proof. unfold sub_property_tokens, or_empty. apply tokens_of_split. Qed.

(** C10: reading [sub_properties] never raises.  The sub-properties string
    (the empty string when it is null) is made of its tokens, the strings
    between its [';'], in one way only, and the dictionary is the one of
    these tokens: it has the entry [k ↦ v] exactly when the last token that
    reads [k=...] with exactly one ['='] is [k=v].  So every token with
    exactly one ['='] puts its key in the dictionary, tokens with no ['='] or
    with several contribute nothing, and a null string gives the empty
    dictionary. *)
Theorem sub_properties_spec (self : Property) :
  ∃ (d : gmap string string) (tokens : list string),
    sub_properties self = Ok d
    ∧ tokens_of (match _sub_properties self with Some s => s | None => "" end) tokens
    ∧ (∀ tokens',
         tokens_of (match _sub_properties self with Some s => s | None => "" end) tokens' →
         tokens' = tokens)
    ∧ (∀ k v, d !! k = Some v ↔ last_entry tokens k v)
    ∧ (∀ token, token ∈ tokens → str_count token "=" = 1%nat →
         ∃ k v, token = k ++ String "=" v ∧ is_Some (d !! k))
    ∧ (∀ k v, d !! k = Some v →
         ∃ token, token ∈ tokens ∧ str_count token "=" = 1%nat
                  ∧ token = k ++ String "=" v)
    ∧ (_sub_properties self = None → d = ∅).
Proof.
  pose proof (sub_property_tokens_of self) as Htokens.
  exists (foldl add_token ∅ (sub_property_tokens self)), (sub_property_tokens self).
  split; [apply sub_properties_foldl|]. split; [done|].
  split; [|split; [|split; [|split]]].
  - intros tokens' Htokens'.
    rewrite (tokens_of_unique _ _ Htokens'). symmetry. by apply tokens_of_unique.
  - apply lookup_foldl_add_token.
  - intros token Hin Hc.
    destruct (str_split_two _ _ Hc) as (k & v & Hsplit & Htoken & _).
    exists k, v. split; [done|].
    apply list_elem_of_split in Hin as (before & after & ->).
    rewrite foldl_app. simpl. apply foldl_add_token_dom.
    unfold add_token, token_entry. apply Nat.eqb_eq in Hc. rewrite Hc, Hsplit.
    rewrite lookup_insert_eq. eauto.
  - intros k v (before & after & -> & Hk & Hv & _)%lookup_foldl_add_token.
    exists (k ++ String "=" v). split; [|split; [|done]].
    + apply elem_of_app. right. by left.
    + by apply str_count_append_sep.
  - unfold sub_property_tokens. by intros ->.
Qed.

(** ** Running computations *)

Lemma bind_run {A B : Type} (m : M A) (k : A → M B) (h h' : heap) (a : A) :
  m h = (Ok a, h') → bind m k h = k a h'.
Proof. unfold bind. by intros ->. Qed.

Lemma bind_raise_run {A B : Type} (m : M A) (k : A → M B) (h h' : heap) (e : exn) :
  m h = (Raise e, h') → bind m k h = (Raise e, h').
Proof. unfold bind. by intros ->. Qed.

Lemma load_run (h : heap) (l : loc) (o : object) :
  h !! l = Some o → load l h = (Ok o, h).
Proof. unfold load. by intros ->. Qed.

Lemma type_of_run (h : heap) (l : loc) (o : object) :
  h !! l = Some o → type_of l h = (Ok (obj_class o), h).
Proof. intros Hl. unfold type_of. by rewrite (bind_run _ _ _ _ _ (load_run _ _ _ Hl)). Qed.

Lemma name_in_spec (name : string) (names : list string) :
  name_in name names = true ↔ name ∈ names.
Proof.
  unfold name_in. rewrite existsb_exists. split.
  - intros (x & Hin & Heq). apply String.eqb_eq in Heq as ->. by apply list_elem_of_In.
  - intros Hin. exists name. split; [by apply list_elem_of_In|apply String.eqb_refl].
Qed.

(** ** Attribute reads *)

Lemma lookup_property_component (c : class) (name : string) :
  is_recurring c = false →
  lookup_property c name = assoc name (component_properties c).
Proof. unfold lookup_property. by intros ->. Qed.

Lemma object_getattribute_property (ga : reader) (self : loc) (name : string)
    (h : heap) (o : object) (getter : reader → loc → M value) :
  h !! self = Some o →
  lookup_property (obj_class o) name = Some getter →
  object_getattribute ga self name h = getter ga self h.
Proof.
  intros Hself Hp. unfold object_getattribute.
  rewrite (bind_run _ _ _ _ _ (load_run _ _ _ Hself)). by rewrite Hp.
Qed.

Lemma object_getattribute_field (ga : reader) (self : loc) (name : string)
    (h : heap) (o : object) :
  h !! self = Some o →
  lookup_property (obj_class o) name = None →
  object_getattribute ga self name h = (field_of self o name, h).
Proof.
  intros Hself Hp. unfold object_getattribute, field_of.
  rewrite (bind_run _ _ _ _ _ (load_run _ _ _ Hself)). rewrite Hp.
  destruct (obj_dict o !! name); [done|]. by destruct (name_in name methods).
Qed.

Section Reads.

Variable names : class → list string.

(** A component reads its attributes as [object] does. *)
Lemma getattr_component (n : nat) (self : loc) (name : string) (h : heap) (o : object) :
  h !! self = Some o →
  is_recurring (obj_class o) = false →
  getattr names (S n) self name h = object_getattribute (getattr names n) self name h.
Proof.
  intros Hself Hc. simpl. unfold getattr_body.
  rewrite (bind_run _ _ _ _ _ (type_of_run _ _ _ Hself)). by rewrite Hc.
Qed.

(** An occurrence reads its attributes through [__getattribute__]. *)
Lemma getattr_recurring (n : nat) (self : loc) (name : string) (h : heap) (o : object) :
  h !! self = Some o →
  is_recurring (obj_class o) = true →
  getattr names (S n) self name h = __getattribute__ names (getattr names n) self name h.
Proof.
  intros Hself Hc. simpl. unfold getattr_body.
  rewrite (bind_run _ _ _ _ _ (type_of_run _ _ _ Hself)). by rewrite Hc.
Qed.

(** A field of a component. *)
Lemma getattr_component_field (n : nat) (self : loc) (name : string) (h : heap) (o : object) :
  h !! self = Some o →
  is_recurring (obj_class o) = false →
  assoc name (component_properties (obj_class o)) = None →
  getattr names (S n) self name h = (field_of self o name, h).
Proof.
  intros Hself Hc Hp. rewrite (getattr_component _ _ _ _ _ Hself Hc).
  apply (object_getattribute_field _ _ _ _ _ Hself).
  by rewrite lookup_property_component.
Qed.

(** An attribute an occurrence reads on itself and that is no property. *)
Lemma getattr_own_field (n : nat) (self : loc) (name : string) (h : heap) (o : object) :
  h !! self = Some o →
  is_recurring (obj_class o) = true →
  name ∈ ["_start"; "_end"; "_original"; "_parent"] →
  getattr names (S n) self name h = (field_of self o name, h).
Proof.
  intros Hself Hc Hname. rewrite (getattr_recurring _ _ _ _ _ Hself Hc).
  unfold __getattribute__.
  assert (name_in name own_attributes = true
          ∧ lookup_property (obj_class o) name = None) as [-> Hp].
  { unfold lookup_property. rewrite Hc.
    repeat (apply elem_of_cons in Hname as [->|Hname]; [done|]).
    by apply elem_of_nil in Hname. }
  by apply (object_getattribute_field _ _ _ _ _ Hself).
Qed.

(** *** The required properties *)

(** C3: on a component, reading [uid] raises [MissingRequiredProperty] when
    the UID is unset ([None]) and returns the stored value otherwise; the
    same holds of [dtstamp].  The store is left as it was. *)
Theorem uid_dtstamp_required (n : nat) (self : loc) (h : heap) (o : object)
    (stored_uid stored_dtstamp : value) :
  h !! self = Some o →
  is_recurring (obj_class o) = false →
  obj_dict o !! "_uid" = Some stored_uid →
  obj_dict o !! "_dtstamp" = Some stored_dtstamp →
  getattr names (S (S n)) self "uid" h
    = (if is_None stored_uid then Raise (MissingRequiredProperty self "uid")
       else Ok stored_uid, h)
  ∧ getattr names (S (S n)) self "dtstamp" h
    = (if is_None stored_dtstamp then Raise (MissingRequiredProperty self "dtstamp")
       else Ok stored_dtstamp, h).
Proof.
  intros Hself Hc Huid Hdtstamp.
  assert (Hfield : ∀ name v, obj_dict o !! name = Some v →
            assoc name (component_properties (obj_class o)) = None →
            getattr names (S n) self name h = (Ok v, h)).
  { intros name v Hv Hp. rewrite (getattr_component_field _ _ _ _ _ Hself Hc Hp).
    unfold field_of. by rewrite Hv. }
  split.
  - rewrite (getattr_component _ _ _ _ _ Hself Hc).
    rewrite (object_getattribute_property _ _ _ _ _ uid Hself)
      by (by rewrite lookup_property_component).
    unfold uid. rewrite (bind_run _ _ _ _ _ (Hfield _ _ Huid eq_refl)).
    destruct (is_None stored_uid); [done|]. by apply Hfield.
  - rewrite (getattr_component _ _ _ _ _ Hself Hc).
    rewrite (object_getattribute_property _ _ _ _ _ dtstamp Hself)
      by (by rewrite lookup_property_component).
    unfold dtstamp. rewrite (bind_run _ _ _ _ _ (Hfield _ _ Hdtstamp eq_refl)).
    destruct (is_None stored_dtstamp); [done|]. by apply Hfield.
Qed.

(** *** Journals *)

(** C8: on a journal, [ending] is the journal's own [dtstart], whatever its
    other properties are, and [get_duration()] returns the zero duration. *)
Theorem journal_ending_and_duration (n : nat) (self : loc) (h : heap) (o : object) :
  h !! self = Some o →
  obj_class o = VJournal →
  getattr names (S (S n)) self "ending" h = getattr names (S n) self "dtstart" h
  ∧ getattr names (S n) self "dtstart" h = (field_of self o "dtstart", h)
  ∧ get_duration (getattr names n) self h = (Ok (VDuration 0), h).
Proof.
  intros Hself Hclass.
  assert (Hc : is_recurring (obj_class o) = false) by (by rewrite Hclass).
  split; [|split].
  - rewrite (getattr_component _ _ _ _ _ Hself Hc).
    rewrite (object_getattribute_property _ _ _ _ _ (ending (obj_class o)) Hself)
      by (by rewrite lookup_property_component).
    by rewrite Hclass.
  - apply (getattr_component_field _ _ _ _ _ Hself Hc). by rewrite Hclass.
  - unfold get_duration.
    rewrite (bind_run _ _ _ _ _ (type_of_run _ _ _ Hself)). by rewrite Hclass.
Qed.

End Reads.

(** ** Expansion of a journal *)

Section Expansion.

Variable names : class → list string.
Variable Component___setattr__ : loc → string → value → M unit.
Variable Iter : Type.
Variable property_utils_expand_component_in_range :
  ∀ (exdate_list rdate_list rrule first_event_start first_event_duration
     return_range make_tz_aware : value), Iter.
Variable iter_next : Iter → res (option (value * value * Iter)).

Local Abbreviation next' :=
  (next names Component___setattr__ Iter property_utils_expand_component_in_range iter_next).
Local Abbreviation take_from' :=
  (take_from names Component___setattr__ Iter property_utils_expand_component_in_range iter_next).

(** Whatever a generator that has started yields later, what it yielded first
    stays first. *)
Lemma take_from_head (depth n : nat) (g g' : expansion Iter) (h h' : heap) (v : value) :
  next' depth g h = (Ok (Some v, g'), h') →
  ∀ vs h'', take_from' depth (S n) g h = (Ok vs, h'') → head vs = Some v.
Proof.
  intros Hnext vs h''. simpl. rewrite (bind_run _ _ _ _ _ Hnext).
  unfold bind. destruct (take_from' depth n g' h') as [[vs'|e] h1]; [|done].
  by intros [= <- _].
Qed.

(** C1: for every journal and every range, the first element the expansion
    produces is the journal itself, with its own start and end.  It is
    yielded before the range, the recurrence rule or the store is looked at,
    so also when its start and end lie outside the range; and it is the first
    element of every prefix of the sequence. *)
Theorem expansion_first_is_master (depth : nat) (self : loc) (return_range : value) (h : heap) :
  next' depth (expand_component_in_range Iter self return_range) h
    = (Ok (Some (VRef self), AtFirstYield Iter self return_range), h)
  ∧ take_from' depth 1 (expand_component_in_range Iter self return_range) h
    = (Ok [VRef self], h)
  ∧ ∀ n vs h',
      take_from' depth (S n) (expand_component_in_range Iter self return_range) h
        = (Ok vs, h') →
      head vs = Some (VRef self).
Proof.
  assert (Hfirst : next' depth (expand_component_in_range Iter self return_range) h
                   = (Ok (Some (VRef self), AtFirstYield Iter self return_range), h))
    by reflexivity.
  split; [done|]. split; [reflexivity|].
  intros n. by apply (take_from_head depth n _ _ _ _ _ Hfirst).
Qed.

End Expansion.

(** ** Occurrences *)

Section Occurrences.

Variable names : class → list string.

Lemma component_class_not_recurring (c : class) : is_recurring (component_class c) = false.
Proof. by destruct c. Qed.

Lemma name_in_false (name : string) (l : list string) :
  name ∉ l → name_in name l = false.
Proof.
  intros Hnot. destruct (name_in name l) eqn:Hin; [|done].
  by apply name_in_spec in Hin.
Qed.

Lemma name_in_true (name : string) (l : list string) :
  name ∈ l → name_in name l = true.
Proof. apply name_in_spec. Qed.

Lemma assoc_Some_elem {A : Type} (name : string) (table : list (string * A)) (a : A) :
  assoc name table = Some a → name ∈ table.*1.
Proof.
  induction table as [|[key a'] table IH]; simpl; [done|].
  destruct (String.eqb name key) eqn:Heq.
  - apply String.eqb_eq in Heq as ->. intros _. by left.
  - intros Ha. right. by apply IH.
Qed.

(** The original of an occurrence, as the occurrence reads it. *)
Lemma getattr_original (n : nat) (self : loc) (h : heap) (o : object) (v : value) :
  h !! self = Some o →
  is_recurring (obj_class o) = true →
  obj_dict o !! "_original" = Some v →
  getattr names (S n) self "_original" h = (Ok v, h).
Proof.
  intros Hself Hc Ho.
  rewrite (getattr_own_field names _ _ _ _ _ Hself Hc)
    by (apply list_elem_of_In; simpl; tauto).
  unfold field_of. by rewrite Ho.
Qed.

(** A name that is forwarded is read on the original. *)
Lemma getattr_forwarded (n : nat) (self m : loc) (h : heap) (o om : object) (name : string) :
  h !! self = Some o →
  is_recurring (obj_class o) = true →
  obj_dict o !! "_original" = Some (VRef m) →
  h !! m = Some om →
  is_recurring (obj_class om) = false →
  name ∉ own_attributes →
  name ∈ original_private_attributes ∨ name ∈ names (obj_class om) →
  getattr names (S (S n)) self name h = getattr names (S (S n)) m name h.
Proof.
  intros Hself Hc Ho Hm Hmc Hown Hfw.
  rewrite (getattr_recurring names _ _ _ _ _ Hself Hc).
  rewrite (getattr_component names _ _ _ _ _ Hm Hmc).
  unfold __getattribute__. rewrite (name_in_false _ _ Hown).
  destruct (name_in name original_private_attributes) eqn:Hpriv.
  - by rewrite (bind_run _ _ _ _ _ (getattr_original _ _ _ _ _ Hself Hc Ho)).
  - destruct Hfw as [Hfw|Hfw]; [by rewrite (name_in_true _ _ Hfw) in Hpriv|].
    rewrite (bind_run _ _ _ _ _ (getattr_original _ _ _ _ _ Hself Hc Ho)).
    unfold property_ical_names_of.
    rewrite (bind_run _ _ _ _ (names (obj_class om))
               (bind_run _ _ _ _ _ (type_of_run _ _ _ Hm))).
    rewrite (name_in_true _ _ Hfw).
    by rewrite (bind_run _ _ _ _ _ (getattr_original _ _ _ _ _ Hself Hc Ho)).
Qed.

(** A name that is neither the occurrence's own nor forwarded is looked up
    on the occurrence. *)
Lemma getattr_not_forwarded (n : nat) (self m : loc) (h : heap) (o om : object) (name : string) :
  h !! self = Some o →
  is_recurring (obj_class o) = true →
  obj_dict o !! "_original" = Some (VRef m) →
  h !! m = Some om →
  name ∉ own_attributes →
  name ∉ original_private_attributes →
  name ∉ names (obj_class om) →
  getattr names (S (S n)) self name h
    = object_getattribute (getattr names (S n)) self name h.
Proof.
  intros Hself Hc Ho Hm Hown Hpriv Hnames.
  rewrite (getattr_recurring names _ _ _ _ _ Hself Hc).
  unfold __getattribute__.
  rewrite (name_in_false _ _ Hown), (name_in_false _ _ Hpriv).
  rewrite (bind_run _ _ _ _ _ (getattr_original _ _ _ _ _ Hself Hc Ho)).
  unfold property_ical_names_of.
  rewrite (bind_run _ _ _ _ (names (obj_class om))
             (bind_run _ _ _ _ _ (type_of_run _ _ _ Hm))).
  by rewrite (name_in_false _ _ Hnames).
Qed.

(** A property of the recurring base, read on an occurrence. *)
Lemma getattr_own_property (n : nat) (self : loc) (h : heap) (o : object)
    (name : string) (getter : reader → loc → M value) :
  h !! self = Some o →
  is_recurring (obj_class o) = true →
  assoc name recurring_properties = Some getter →
  getattr names (S n) self name h = getter (getattr names n) self h.
Proof.
  intros Hself Hc Hp.
  rewrite (getattr_recurring names _ _ _ _ _ Hself Hc).
  unfold __getattribute__.
  assert (name_in name own_attributes = true) as ->.
  { pose proof (assoc_Some_elem _ _ _ Hp) as Hin. simpl in Hin.
    repeat (apply elem_of_cons in Hin as [->|Hin]; [reflexivity|]).
    by apply elem_of_nil in Hin. }
  apply (object_getattribute_property _ _ _ _ _ _ Hself).
  unfold lookup_property. by rewrite Hc, Hp.
Qed.

(** C2, as the code has it: an occurrence forwards to its original the reads
    of the original's property names and of [_name], [_extra_child_components]
    and [_extra_properties]; [start], [end] and [original] are its own fields
    [_start], [_end] and [_original]; [parent] is the parent of the original;
    every other name, the private fields among them, is looked up on the
    occurrence itself. *)
Theorem occurrence_reads (n : nat) (self m : loc) (h : heap) (o om : object) :
  occurrence_of h self m o om →
  (∀ name, name ∉ own_attributes →
     name ∈ original_private_attributes ∨ name ∈ names (obj_class om) →
     getattr names (S (S n)) self name h = getattr names (S (S n)) m name h)
  ∧ getattr names (S (S n)) self "start" h = (field_of self o "_start", h)
  ∧ getattr names (S (S n)) self "end" h = (field_of self o "_end", h)
  ∧ getattr names (S (S n)) self "original" h = (Ok (VRef m), h)
  ∧ getattr names (S (S n)) self "parent" h = getattr names (S n) m "parent" h
  ∧ (∀ name, name ∈ ["_start"; "_end"; "_original"; "_parent"] →
       getattr names (S n) self name h = (field_of self o name, h))
  ∧ (∀ name, name ∉ own_attributes → name ∉ original_private_attributes →
       name ∉ names (obj_class om) →
       getattr names (S (S n)) self name h
         = object_getattribute (getattr names (S n)) self name h).
Proof.
  intros (Hself & Hc & Ho & Hm & Hmclass).
  assert (Hmc : is_recurring (obj_class om) = false)
    by (rewrite Hmclass; apply component_class_not_recurring).
  split; [|split; [|split; [|split; [|split; [|split]]]]].
  - intros name. by apply (getattr_forwarded n self m h o om name).
  - rewrite (getattr_own_property _ _ _ _ "start" recurring_start Hself Hc eq_refl).
    unfold recurring_start. apply (getattr_own_field names _ _ _ _ _ Hself Hc).
    apply list_elem_of_In. simpl. tauto.
  - rewrite (getattr_own_property _ _ _ _ "end" recurring_end Hself Hc eq_refl).
    unfold recurring_end. apply (getattr_own_field names _ _ _ _ _ Hself Hc).
    apply list_elem_of_In. simpl. tauto.
  - rewrite (getattr_own_property _ _ _ _ "original" original Hself Hc eq_refl).
    unfold original. by apply (getattr_original _ _ _ o).
  - rewrite (getattr_own_property _ _ _ _ "parent" recurring_parent Hself Hc eq_refl).
    unfold recurring_parent.
    by rewrite (bind_run _ _ _ _ _ (getattr_original _ _ _ _ _ Hself Hc Ho)).
  - intros name. by apply (getattr_own_field names _ _ _ _ _ Hself Hc).
  - intros name. by apply (getattr_not_forwarded n self m h o om name).
Qed.

(** *** Equality of occurrences *)

Lemma ending_unfold (c : class) (ga : reader) (self : loc) :
  ending c ga self = ga self (ending_field c).
Proof. by destruct c. Qed.

(** *** Equality *)

Lemma same_object_refl (p : Property) : same_object p p = true.
Proof. by apply bool_decide_eq_true_2. Qed.

Lemma py_eq_properties_refl (l : list Property) : py_eq_properties l l = true.
Proof. induction l as [|p l IH]; [done|]. simpl. by rewrite same_object_refl. Qed.

(** An object is equal to itself. *)
Lemma py_eq_refl (v : value) : py_eq v v = true.
Proof.
  destruct v; simpl;
    first [ done | apply same_object_refl | apply py_eq_properties_refl
          | by apply bool_decide_eq_true_2 ].
Qed.

Lemma py_eq_items_refl (vs : list value) : py_eq_items vs vs = true.
Proof. induction vs as [|v vs IH]; [done|]. simpl. by rewrite py_eq_refl. Qed.

Lemma read_fields_run (ga : reader) (x : loc) (h : heap)
    (fields : list string) (vs : list value) :
  Forall2 (λ f v, ga x f h = (Ok v, h)) fields vs →
  read_fields ga x fields h = (Ok vs, h).
Proof.
  induction 1 as [|f v fields vs Hread _ IH]; [done|].
  cbn [read_fields]. rewrite (bind_run _ _ _ _ _ Hread). by rewrite (bind_run _ _ _ _ _ IH).
Qed.

Lemma field_values_Forall2 (o : object) (fields : list string) (vs : list value) :
  field_values o fields = Some vs →
  Forall2 (λ f v, obj_dict o !! f = Some v) fields vs.
Proof.
  revert vs. induction fields as [|f fields IH]; intros vs; simpl.
  - intros [= <-]. constructor.
  - destruct (obj_dict o !! f) as [v|] eqn:Hv; [|done].
    destruct (field_values o fields) as [vs'|]; [|done].
    intros [= <-]. constructor; [done|by apply IH].
Qed.

(** The comparison that [@dataclass] generates, on two objects of one
    class. *)
Lemma dataclass___eq___same_class (ga : reader) (a b : loc) (h : heap) (oa ob : object)
    (xs ys : list value) :
  h !! a = Some oa →
  h !! b = Some ob →
  obj_class ob = obj_class oa →
  read_fields ga a VJournal_fields h = (Ok xs, h) →
  read_fields ga b VJournal_fields h = (Ok ys, h) →
  dataclass___eq__ ga a b h = (Ok (Some (py_eq_items xs ys)), h).
Proof.
  intros Ha Hb Hclass Hxs Hys. unfold dataclass___eq__.
  rewrite (bind_run _ _ _ _ _ (type_of_run _ _ _ Hb)).
  rewrite (bind_run _ _ _ _ _ (type_of_run _ _ _ Ha)).
  rewrite (bool_decide_eq_true_2 _ Hclass).
  by rewrite (bind_run _ _ _ _ _ Hxs), (bind_run _ _ _ _ _ Hys).
Qed.

(** On two objects of different classes it answers [NotImplemented] and
    reads no attribute. *)
Lemma dataclass___eq___other_class (ga : reader) (a b : loc) (h : heap) (oa ob : object) :
  h !! a = Some oa →
  h !! b = Some ob →
  obj_class ob ≠ obj_class oa →
  dataclass___eq__ ga a b h = (Ok None, h).
Proof.
  intros Ha Hb Hclass. unfold dataclass___eq__.
  rewrite (bind_run _ _ _ _ _ (type_of_run _ _ _ Hb)).
  rewrite (bind_run _ _ _ _ _ (type_of_run _ _ _ Ha)).
  by rewrite (bool_decide_eq_false_2 _ Hclass).
Qed.

Lemma is_proper_subclass_irrefl (c : class) : is_proper_subclass c c = false.
Proof. by destruct c. Qed.

Lemma py_equals_same_class (ga : reader) (a b : loc) (h : heap) (oa ob : object)
    (xs ys : list value) :
  h !! a = Some oa →
  h !! b = Some ob →
  obj_class ob = obj_class oa →
  read_fields ga a VJournal_fields h = (Ok xs, h) →
  read_fields ga b VJournal_fields h = (Ok ys, h) →
  py_equals ga a b h = (Ok (py_eq_items xs ys), h).
Proof.
  intros Ha Hb Hclass Hxs Hys. unfold py_equals.
  rewrite (bind_run _ _ _ _ _ (type_of_run _ _ _ Ha)).
  rewrite (bind_run _ _ _ _ _ (type_of_run _ _ _ Hb)).
  rewrite Hclass, is_proper_subclass_irrefl. cbn [fst snd].
  by rewrite (bind_run _ _ _ _ _
                (dataclass___eq___same_class ga a b h oa ob xs ys Ha Hb Hclass Hxs Hys)).
Qed.

Lemma py_equals_other_class (ga : reader) (a b : loc) (h : heap) (oa ob : object) :
  h !! a = Some oa →
  h !! b = Some ob →
  obj_class ob ≠ obj_class oa →
  py_equals ga a b h = (Ok false, h).
Proof.
  intros Ha Hb Hclass. unfold py_equals.
  assert (Hne : a ≠ b) by (intros ->; congruence).
  assert (Hclass' : obj_class oa ≠ obj_class ob) by congruence.
  rewrite (bind_run _ _ _ _ _ (type_of_run _ _ _ Ha)).
  rewrite (bind_run _ _ _ _ _ (type_of_run _ _ _ Hb)).
  destruct (is_proper_subclass (obj_class ob) (obj_class oa)); cbn [fst snd].
  - rewrite (bind_run _ _ _ _ _ (dataclass___eq___other_class ga b a h ob oa Hb Ha Hclass')).
    rewrite (bind_run _ _ _ _ _ (dataclass___eq___other_class ga a b h oa ob Ha Hb Hclass)).
    unfold ret. by rewrite (bool_decide_eq_false_2 _ Hne).
  - rewrite (bind_run _ _ _ _ _ (dataclass___eq___other_class ga a b h oa ob Ha Hb Hclass)).
    rewrite (bind_run _ _ _ _ _ (dataclass___eq___other_class ga b a h ob oa Hb Ha Hclass')).
    unfold ret. by rewrite (bool_decide_eq_false_2 _ Hne).
Qed.

(** The fields of the dataclass are neither among the attributes an
    occurrence reads on itself nor properties of a class. *)
Lemma VJournal_fields_plain (c : class) (name : string) :
  name ∈ VJournal_fields →
  (name ∉ own_attributes) ∧ (assoc name (component_properties c) = None).
Proof.
  unfold VJournal_fields. intros Hin.
  repeat (apply elem_of_cons in Hin as [->|Hin];
          [split; [by intros ?%name_in_true|done]|]).
  by apply elem_of_nil in Hin.
Qed.

(** A field of the dataclass, read through an occurrence, is the field of
    the original. *)
Lemma getattr_forwarded_field (n : nat) (self m : loc) (h : heap) (o om : object)
    (name : string) (v : value) :
  occurrence_of h self m o om →
  name ∈ VJournal_fields →
  name ∈ names (obj_class om) →
  obj_dict om !! name = Some v →
  getattr names (S (S n)) self name h = (Ok v, h).
Proof.
  intros (Hself & Hc & Ho & Hm & Hmclass) Hin Hnames Hv.
  assert (Hmc : is_recurring (obj_class om) = false)
    by (rewrite Hmclass; apply component_class_not_recurring).
  destruct (VJournal_fields_plain (obj_class om) _ Hin) as [Hown Hplain].
  rewrite (getattr_forwarded n self m h o om name) by auto.
  rewrite (getattr_component_field names _ _ _ _ _ Hm Hmc Hplain).
  unfold field_of. by rewrite Hv.
Qed.

Lemma occurrence_read_fields (n : nat) (self m : loc) (h : heap) (o om : object)
    (vs : list value) :
  occurrence_of h self m o om →
  VJournal_fields ⊆ names (obj_class om) →
  field_values om VJournal_fields = Some vs →
  read_fields (getattr names (S (S n))) self VJournal_fields h = (Ok vs, h).
Proof.
  intros Hocc Hnames Hvs. apply read_fields_run.
  apply field_values_Forall2 in Hvs.
  assert (Hall : Forall (λ f, f ∈ VJournal_fields) VJournal_fields)
    by (by apply Forall_forall).
  assert (Hreads : ∀ fields vs,
            Forall (λ f, f ∈ VJournal_fields) fields →
            Forall2 (λ f v, obj_dict om !! f = Some v) fields vs →
            Forall2 (λ f v, getattr names (S (S n)) self f h = (Ok v, h)) fields vs).
  { intros fields vs' Hin Hdict.
    induction Hdict as [|f v fields vs' Hv _ IH]; [constructor|].
    apply Forall_cons in Hin as [Hf Hin].
    constructor; [|by apply IH].
    by apply (getattr_forwarded_field n self m h o om f v Hocc Hf (Hnames _ Hf)). }
  by apply Hreads.
Qed.


End Occurrences.

(** *** Writes on an occurrence *)

Section Occurrence_writes.

Variable names : class → list string.
Variable Component___setattr__ : loc → string → value → M unit.

Lemma store_field_run (h : heap) (l : loc) (o : object) (key : string) (v : value) :
  h !! l = Some o →
  store_field l key v h = (Ok (), <[l := with_field o key v]> h).
Proof. unfold store_field. by intros ->. Qed.

Lemma setattr_recurring (n : nat) (self : loc) (key : string) (v : value)
    (h : heap) (o : object) :
  h !! self = Some o →
  is_recurring (obj_class o) = true →
  setattr Component___setattr__ (S n) self key v h
    = object_setattr (setattr Component___setattr__ n) self key v h.
Proof.
  intros Hself Hc. simpl. unfold setattr_body.
  rewrite (bind_run _ _ _ _ _ (type_of_run _ _ _ Hself)). by rewrite Hc.
Qed.

(** A write on an occurrence changes no other object. *)
Lemma setattr_frame (n : nat) (self : loc) (key : string) (v : value)
    (h : heap) (o : object) (l : loc) :
  h !! self = Some o →
  is_recurring (obj_class o) = true →
  l ≠ self →
  (setattr Component___setattr__ n self key v h).2 !! l = h !! l.
Proof.
  intros Hself Hc Hl. revert key. induction n as [|n IH]; intros key; [done|].
  rewrite (setattr_recurring _ _ _ _ _ _ Hself Hc). unfold object_setattr.
  rewrite (bind_run _ _ _ _ _ (load_run _ _ _ Hself)).
  destruct (lookup_property (obj_class o) key).
  - unfold property_setters. simpl.
    destruct (String.eqb key "dtstamp"); [apply IH|].
    destruct (String.eqb key "uid"); [apply IH|done].
  - rewrite (store_field_run _ _ _ _ _ Hself). simpl. by rewrite lookup_insert_ne.
Qed.

Lemma occurrence_not_original (h : heap) (self m : loc) (o om : object) :
  occurrence_of h self m o om → m ≠ self.
Proof.
  intros (Hself & Hc & _ & Hm & Hmclass) ->.
  assert (om = o) as -> by congruence.
  rewrite Hmclass in Hc. by rewrite component_class_not_recurring in Hc.
Qed.

(** C9, as the code has it.  A write on an occurrence changes no other
    object: the original keeps all its fields.  A name that is no property of
    the class is stored in the dictionary of the occurrence; reading it back
    gives the written value when the occurrence reads the name on itself, and
    still gives the attribute of the original when the name is forwarded. *)
Theorem occurrence_write (n n' : nat) (self m : loc) (h : heap) (o om : object)
    (key : string) (v : value) :
  occurrence_of h self m o om →
  let h' := (setattr Component___setattr__ (S (S n)) self key v h).2 in
  (∀ l, l ≠ self → h' !! l = h !! l)
  ∧ h' !! m = Some om
  ∧ (lookup_property (obj_class o) key = None →
     setattr Component___setattr__ (S (S n)) self key v h
       = (Ok (), <[self := with_field o key v]> h)
     ∧ getattr names (S (S n')) self key h'
       = if name_in key own_attributes then (Ok v, h')
         else if name_in key original_private_attributes
                 || name_in key (names (obj_class om))
         then getattr names (S (S n')) m key h'
         else (Ok v, h')).
Proof.
  intros Hocc h'.
  pose proof (occurrence_not_original _ _ _ _ _ Hocc) as Hne.
  destruct Hocc as (Hself & Hc & Ho & Hm & Hmclass).
  assert (Hmc : is_recurring (obj_class om) = false)
    by (rewrite Hmclass; apply component_class_not_recurring).
  assert (Hframe : ∀ l, l ≠ self → h' !! l = h !! l).
  { intros l Hl. by apply (setattr_frame _ _ _ _ _ o). }
  split; [done|]. split; [by rewrite Hframe|].
  intros Hp.
  assert (Hrun : setattr Component___setattr__ (S (S n)) self key v h
                 = (Ok (), <[self := with_field o key v]> h)).
  { rewrite (setattr_recurring _ _ _ _ _ _ Hself Hc). unfold object_setattr.
    rewrite (bind_run _ _ _ _ _ (load_run _ _ _ Hself)). rewrite Hp.
    by apply store_field_run. }
  split; [done|].
  subst h'. rewrite Hrun. cbn [snd].
  set (o' := with_field o key v). set (h' := <[self := o']> h).
  assert (Hself' : h' !! self = Some o') by apply lookup_insert_eq.
  assert (Hc' : is_recurring (obj_class o') = true) by done.
  assert (Hp' : lookup_property (obj_class o') key = None) by done.
  assert (Hv : field_of self o' key = Ok v).
  { unfold field_of, o'. simpl. by rewrite lookup_insert_eq. }
  destruct (name_in key own_attributes) eqn:Hown.
  - rewrite (getattr_recurring names _ _ _ _ _ Hself' Hc').
    unfold __getattribute__. rewrite Hown.
    rewrite (object_getattribute_field _ _ _ _ _ Hself' Hp'). by rewrite Hv.
  - assert (Hkey : key ≠ "_original") by (by intros ->).
    assert (Ho' : obj_dict o' !! "_original" = Some (VRef m)).
    { unfold o'. simpl. by rewrite lookup_insert_ne. }
    assert (Hm' : h' !! m = Some om) by (unfold h'; by rewrite lookup_insert_ne).
    assert (Hnown : key ∉ own_attributes).
    { intros Hin%name_in_true. congruence. }
    destruct (name_in key original_private_attributes
              || name_in key (names (obj_class om))) eqn:Hfw.
    + apply (getattr_forwarded names n' self m h' o' om key); auto.
      apply orb_true_iff in Hfw as [Hfw|Hfw]; [left|right]; by apply name_in_spec.
    + apply orb_false_iff in Hfw as [Hpriv Hnames].
      rewrite (getattr_not_forwarded names n' self m h' o' om key); auto.
      * rewrite (object_getattribute_field _ _ _ _ _ Hself' Hp'). by rewrite Hv.
      * intros Hin%name_in_true. congruence.
      * intros Hin%name_in_true. congruence.
Qed.

End Occurrence_writes.

(** ** Memoized properties of a component *)

Lemma bind_res_run {A B : Type} (m : M A) (k : A → M B) (h h' : heap) (r : res A) :
  m h = (r, h') →
  bind m k h = match r with
               | Ok a => k a h'
               | Raise e => (Raise e, h')
               end.
Proof. unfold bind. by intros ->. Qed.

Lemma field_of_ext (self : loc) (o o' : object) (name : string) :
  obj_dict o' = obj_dict o → field_of self o' name = field_of self o name.
Proof. unfold field_of. by intros ->. Qed.

Lemma ending_of_ext (self : loc) (o o' : object) :
  obj_class o' = obj_class o → obj_dict o' = obj_dict o →
  ending_of self o' = ending_of self o.
Proof. unfold ending_of, field_of. by intros -> ->. Qed.

Lemma duration_of_ext (self : loc) (o o' : object) :
  obj_class o' = obj_class o → obj_dict o' = obj_dict o →
  duration_of self o' = duration_of self o.
Proof. unfold duration_of, field_of. by intros -> ->. Qed.

Lemma start_computed_ext (self : loc) (o o' : object) :
  obj_dict o' = obj_dict o → start_computed self o' = start_computed self o.
Proof. unfold start_computed, field_of. by intros ->. Qed.

Lemma end_computed_ext (self : loc) (o o' : object) (start : res value) :
  obj_class o' = obj_class o → obj_dict o' = obj_dict o →
  end_computed self o' start = end_computed self o start.
Proof.
  intros Hc Hd. unfold end_computed.
  by rewrite (ending_of_ext _ _ _ Hc Hd), (duration_of_ext _ _ _ Hc Hd).
Qed.

Lemma computed_duration_computed_ext (self : loc) (o o' : object) (end_ start : res value) :
  obj_class o' = obj_class o → obj_dict o' = obj_dict o →
  computed_duration_computed self o' end_ start
    = computed_duration_computed self o end_ start.
Proof.
  intros Hc Hd. unfold computed_duration_computed.
  by rewrite (duration_of_ext _ _ _ Hc Hd).
Qed.

Lemma memoized_hit (o : object) (slot : string) (computed : res value) (v : value) :
  obj_cache o !! slot = Some v → memoized o slot computed = Ok v.
Proof. unfold memoized. by intros ->. Qed.

Lemma memoized_miss (o : object) (slot : string) (computed : res value) :
  obj_cache o !! slot = None → memoized o slot computed = computed.
Proof. unfold memoized. by intros ->. Qed.

(** Memoizing the value a property returns changes the value of no
    property. *)
Lemma memoized_with_memo (o : object) (slot slot' : string) (v : value)
    (computed : res value) :
  (slot' = slot → memoized o slot computed = Ok v) →
  memoized (with_memo o slot' v) slot computed = memoized o slot computed.
Proof.
  intros Hv. unfold memoized at 1. cbn [obj_cache with_memo].
  destruct (decide (slot' = slot)) as [->|Hne].
  - rewrite lookup_insert_eq. by rewrite Hv.
  - by rewrite lookup_insert_ne.
Qed.

Lemma same_values_with_memo (self : loc) (o : object) (slot : string) (v : value) :
  (slot = "start" → start_of self o = Ok v) →
  (slot = "end" → end_of self o = Ok v) →
  (slot = "computed_duration" → computed_duration_of self o = Ok v) →
  same_values self o (with_memo o slot v).
Proof.
  intros Hs He Hd.
  assert (Hc : obj_class (with_memo o slot v) = obj_class o) by done.
  assert (Hdict : obj_dict (with_memo o slot v) = obj_dict o) by done.
  assert (Hs' : start_of self (with_memo o slot v) = start_of self o).
  { unfold start_of. rewrite (start_computed_ext _ _ _ Hdict).
    by apply memoized_with_memo. }
  assert (He' : end_of self (with_memo o slot v) = end_of self o).
  { unfold end_of. rewrite Hs', (end_computed_ext _ _ _ _ Hc Hdict).
    by apply memoized_with_memo. }
  assert (Hd' : computed_duration_of self (with_memo o slot v)
                = computed_duration_of self o).
  { unfold computed_duration_of.
    rewrite Hs', He', (computed_duration_computed_ext _ _ _ _ _ Hc Hdict).
    by apply memoized_with_memo. }
  done.
Qed.

Lemma same_values_refl (self : loc) (o : object) : same_values self o o.
Proof. done. Qed.

Lemma same_values_trans (self : loc) (o1 o2 o3 : object) :
  same_values self o1 o2 → same_values self o2 o3 → same_values self o1 o3.
Proof.
  intros (Hc & Hd & Hs & He & Hcd) (Hc' & Hd' & Hs' & He' & Hcd').
  repeat split; congruence.
Qed.

Lemma reached_refl (self : loc) (o : object) (h : heap) :
  h !! self = Some o → reached self o h h.
Proof. intros Hself. exists o. split; [by rewrite insert_id|done]. Qed.

(** A memoized function of a component: it returns the memoized value, or
    what its body computes, and leaves a store that reads have reached. *)
Lemma instance_lru_cache_reached (slot : string) (body : reader → loc → M value)
    (result : object → res value) (computed : object → res value)
    (ga : reader) (self : loc) (o : object) (h h1 : heap) :
  (∀ o1, result o1 = memoized o1 slot (computed o1)) →
  (∀ o1, same_values self o o1 → result o1 = result o) →
  (∀ o1 v, result o1 = Ok v → same_values self o1 (with_memo o1 slot v)) →
  (∀ o1, same_values self o o1 →
     ∃ h2, body ga self (<[self := o1]> h) = (computed o1, h2) ∧ reached self o h h2) →
  reached self o h h1 →
  ∃ h2, instance_lru_cache slot body ga self h1 = (result o, h2) ∧ reached self o h h2.
Proof.
  intros Hresult Hsame Hstore Hbody (o1 & -> & Hsv).
  unfold instance_lru_cache.
  rewrite (bind_run _ _ _ _ _ (load_run _ _ _ (lookup_insert_eq h self o1))).
  rewrite <- (Hsame o1 Hsv), (Hresult o1). unfold memoized.
  destruct (obj_cache o1 !! slot) as [v|] eqn:Hslot.
  - eexists. split; [done|]. by exists o1.
  - destruct (Hbody o1 Hsv) as (h2 & Hrun & (o2 & -> & Hsv2)).
    rewrite (bind_res_run _ _ _ _ _ Hrun).
    destruct (computed o1) as [v|e] eqn:Hcomputed.
    + unfold store_cache, bind at 1. rewrite lookup_insert_eq, insert_insert_eq.
      eexists. split; [done|]. exists (with_memo o2 slot v). split; [done|].
      apply (same_values_trans _ _ o2); [done|]. apply Hstore.
      rewrite (Hsame o2 Hsv2), <- (Hsame o1 Hsv), (Hresult o1).
      by rewrite (memoized_miss _ _ _ Hslot).
    + eexists. split; [done|]. by exists o2.
Qed.

Section Components_memoized.

Variable names : class → list string.

(** A field of a component, in a store that reads have reached. *)
Lemma field_reached (n : nat) (self : loc) (name : string) (o : object) (h h1 : heap) :
  is_recurring (obj_class o) = false →
  assoc name (component_properties (obj_class o)) = None →
  reached self o h h1 →
  getattr names (S n) self name h1 = (field_of self o name, h1).
Proof.
  intros Hc Hp (o1 & -> & (Hc1 & Hd1 & _)).
  rewrite (getattr_component_field names _ _ _ _ o1).
  - by rewrite (field_of_ext _ _ _ _ Hd1).
  - apply lookup_insert_eq.
  - by rewrite Hc1.
  - by rewrite Hc1.
Qed.

Lemma property_reached (n : nat) (self : loc) (name : string) (o : object) (h h1 : heap)
    (getter : reader → loc → M value) :
  is_recurring (obj_class o) = false →
  assoc name (component_properties (obj_class o)) = Some getter →
  reached self o h h1 →
  getattr names (S n) self name h1 = getter (getattr names n) self h1.
Proof.
  intros Hc Hp (o1 & -> & (Hc1 & Hd1 & _)).
  rewrite (getattr_component names _ _ _ _ o1);
    [|apply lookup_insert_eq|by rewrite Hc1].
  apply (object_getattribute_property _ _ _ _ o1); [apply lookup_insert_eq|].
  rewrite Hc1. by rewrite lookup_property_component.
Qed.

Lemma ending_field_plain (c c' : class) :
  assoc (ending_field c) (component_properties c') = None.
Proof. by destruct c. Qed.

Lemma ending_reached (n : nat) (self : loc) (o : object) (h h1 : heap) :
  is_recurring (obj_class o) = false →
  reached self o h h1 →
  getattr names (S (S n)) self "ending" h1 = (ending_of self o, h1).
Proof.
  intros Hc Hr.
  rewrite (property_reached _ _ "ending" _ _ _ (ending (obj_class o)) Hc eq_refl Hr).
  rewrite ending_unfold.
  apply (field_reached _ _ _ _ _ _ Hc (ending_field_plain _ _) Hr).
Qed.

Lemma get_duration_reached (n : nat) (self : loc) (o : object) (h h1 : heap) :
  is_recurring (obj_class o) = false →
  reached self o h h1 →
  get_duration (getattr names (S n)) self h1 = (duration_of self o, h1).
Proof.
  intros Hc Hr. unfold get_duration, duration_of.
  pose proof Hr as (o1 & Hh1 & (Hc1 & _)).
  assert (Hself : h1 !! self = Some o1) by (subst h1; apply lookup_insert_eq).
  rewrite (bind_run _ _ _ _ _ (type_of_run _ _ _ Hself)). rewrite Hc1.
  destruct (component_class (obj_class o)); try done;
    unfold VEvent_get_duration; by apply (field_reached _ _ "duration" _ _ _ Hc eq_refl Hr).
Qed.

Lemma reached_same_values (self : loc) (o o1 : object) (h : heap) :
  same_values self o o1 → reached self o h (<[self := o1]> h).
Proof. intros Hsv. by exists o1. Qed.

Lemma start_reached (n : nat) (self : loc) (o : object) (h h1 : heap) :
  is_recurring (obj_class o) = false →
  reached self o h h1 →
  ∃ h2, getattr names (S (S n)) self "start" h1 = (start_of self o, h2)
        ∧ reached self o h h2.
Proof.
  intros Hc Hr.
  rewrite (property_reached _ _ "start" _ _ _ start Hc eq_refl Hr).
  apply (instance_lru_cache_reached "start" _ (start_of self) (start_computed self));
    [done| |..|done].
  - by intros o1 (_ & _ & Hs & _).
  - intros o1 v Hv. by apply same_values_with_memo.
  - intros o1 Hsv. pose proof (reached_same_values _ _ _ h Hsv) as Hr1.
    destruct Hsv as (_ & Hd1 & _).
    rewrite (start_computed_ext _ _ _ Hd1). unfold start_computed.
    rewrite (bind_res_run _ _ _ _ _ (field_reached n _ "dtstart" _ _ _ Hc eq_refl Hr1)).
    destruct (field_of self o "dtstart") as [d|e] eqn:Hd; cbn [res_bind]; [|by eexists].
    destruct (truthy d); [|by eexists].
    rewrite (bind_res_run _ _ _ _ _ (field_reached n _ "dtstart" _ _ _ Hc eq_refl Hr1)).
    rewrite Hd. by eexists.
Qed.

Lemma end_reached (n : nat) (self : loc) (o : object) (h h1 : heap) :
  is_recurring (obj_class o) = false →
  reached self o h h1 →
  ∃ h2, getattr names (S (S (S n))) self "end" h1 = (end_of self o, h2)
        ∧ reached self o h h2.
Proof.
  intros Hc Hr.
  rewrite (property_reached _ _ "end" _ _ _ end_ Hc eq_refl Hr).
  apply (instance_lru_cache_reached "end" _ (end_of self)
           (λ o1, end_computed self o1 (start_of self o1)));
    [done| |..|done].
  - by intros o1 (_ & _ & _ & He & _).
  - intros o1 v Hv. by apply same_values_with_memo.
  - intros o1 Hsv. pose proof (reached_same_values _ _ _ h Hsv) as Hr1.
    destruct Hsv as (Hc1 & Hd1 & Hs1 & _).
    rewrite (end_computed_ext _ _ _ _ Hc1 Hd1), Hs1. unfold end_computed.
    rewrite (bind_res_run _ _ _ _ _ (ending_reached n _ _ _ _ Hc Hr1)).
    destruct (ending_of self o) as [e|err] eqn:He; cbn [res_bind]; [|by eexists].
    destruct (truthy e).
    { rewrite (bind_res_run _ _ _ _ _ (ending_reached n _ _ _ _ Hc Hr1)).
      rewrite He. by eexists. }
    destruct (start_reached n _ _ _ _ Hc Hr1) as (h2 & Hstart & Hr2).
    rewrite (bind_res_run _ _ _ _ _ Hstart).
    destruct (start_of self o) as [s|err] eqn:Hs; cbn [res_bind]; [|by eexists].
    destruct (truthy s); [|by eexists].
    rewrite (bind_res_run _ _ _ _ _ (get_duration_reached (S n) _ _ _ _ Hc Hr2)).
    destruct (duration_of self o) as [d|err] eqn:Hd; cbn [res_bind]; [|by eexists].
    destruct (truthy d); [|by eexists].
    destruct (start_reached n _ _ _ _ Hc Hr2) as (h3 & Hstart3 & Hr3).
    rewrite (bind_res_run _ _ _ _ _ Hstart3). rewrite Hs.
    rewrite (bind_res_run _ _ _ _ _ (get_duration_reached (S n) _ _ _ _ Hc Hr3)).
    rewrite Hd. by eexists.
Qed.

Lemma computed_duration_reached (n : nat) (self : loc) (o : object) (h h1 : heap) :
  is_recurring (obj_class o) = false →
  reached self o h h1 →
  ∃ h2, getattr names (S (S (S (S n)))) self "computed_duration" h1
          = (computed_duration_of self o, h2)
        ∧ reached self o h h2.
Proof.
  intros Hc Hr.
  rewrite (property_reached _ _ "computed_duration" _ _ _ computed_duration Hc eq_refl Hr).
  apply (instance_lru_cache_reached "computed_duration" _ (computed_duration_of self)
           (λ o1, computed_duration_computed self o1 (end_of self o1) (start_of self o1)));
    [done| |..|done].
  - by intros o1 (_ & _ & _ & _ & Hcd).
  - intros o1 v Hv. by apply same_values_with_memo.
  - intros o1 Hsv. pose proof (reached_same_values _ _ _ h Hsv) as Hr1.
    destruct Hsv as (Hc1 & Hd1 & Hs1 & He1 & _).
    rewrite (computed_duration_computed_ext _ _ _ _ _ Hc1 Hd1), Hs1, He1.
    unfold computed_duration_computed.
    rewrite (bind_res_run _ _ _ _ _ (get_duration_reached (S (S n)) _ _ _ _ Hc Hr1)).
    destruct (duration_of self o) as [d|err] eqn:Hd; cbn [res_bind]; [|by eexists].
    destruct (truthy d); [by eexists|].
    destruct (end_reached n _ _ _ _ Hc Hr1) as (h2 & Hend & Hr2).
    rewrite (bind_res_run _ _ _ _ _ Hend).
    destruct (end_of self o) as [e|err] eqn:He; cbn [res_bind]; [|by eexists].
    destruct (truthy e); [|by eexists].
    destruct (start_reached (S n) _ _ _ _ Hc Hr2) as (h3 & Hstart & Hr3).
    rewrite (bind_res_run _ _ _ _ _ Hstart).
    destruct (start_of self o) as [s|err] eqn:Hs; cbn [res_bind]; [|by eexists].
    destruct (truthy s); [|by eexists].
    destruct (end_reached n _ _ _ _ Hc Hr3) as (h4 & Hend4 & Hr4).
    rewrite (bind_res_run _ _ _ _ _ Hend4). rewrite He.
    destruct (start_reached (S n) _ _ _ _ Hc Hr4) as (h5 & Hstart5 & Hr5).
    rewrite (bind_res_run _ _ _ _ _ Hstart5). rewrite Hs.
    by eexists.
Qed.

(** What the reads of a component return. *)
Lemma component_reads (n : nat) (self : loc) (o : object) (h : heap) :
  h !! self = Some o →
  is_recurring (obj_class o) = false →
  (getattr names (S (S n)) self "start" h).1 = start_of self o
  ∧ (getattr names (S (S (S n))) self "end" h).1 = end_of self o
  ∧ (getattr names (S (S (S (S n)))) self "computed_duration" h).1
    = computed_duration_of self o
  ∧ (getattr names (S (S n)) self "ending" h).1 = ending_of self o
  ∧ (get_duration (getattr names (S n)) self h).1 = duration_of self o.
Proof.
  intros Hself Hc.
  pose proof (reached_refl _ _ _ Hself) as Hr.
  destruct (start_reached n _ _ _ _ Hc Hr) as (? & -> & _).
  destruct (end_reached n _ _ _ _ Hc Hr) as (? & -> & _).
  destruct (computed_duration_reached n _ _ _ _ Hc Hr) as (? & -> & _).
  rewrite (ending_reached n _ _ _ _ Hc Hr).
  by rewrite (get_duration_reached n _ _ _ _ Hc Hr).
Qed.

(** C4, as the code has it: on a component, [timespan] raises [ValueError]
    when the start or the end is [None], and otherwise returns the timespan
    that begins at the start, ends at the end and has the component as its
    parent. *)
Theorem timespan_spec (n : nat) (self : loc) (h : heap) (o : object) (s e : value) :
  h !! self = Some o →
  is_recurring (obj_class o) = false →
  (getattr names (S (S (S (S n)))) self "start" h).1 = Ok s →
  (getattr names (S (S (S (S n)))) self "end" h).1 = Ok e →
  (getattr names (S (S (S (S n)))) self "timespan" h).1
    = if is_None s || is_None e then Raise (ValueError [s; e])
      else Ok (VTimespan self s e).
Proof.
  intros Hself Hc Hstart Hend.
  destruct (component_reads (S (S n)) _ _ _ Hself Hc) as (Hs & _).
  destruct (component_reads (S n) _ _ _ Hself Hc) as (_ & He & _).
  rewrite Hstart in Hs. rewrite Hend in He. clear Hstart Hend.
  pose proof (reached_refl _ _ _ Hself) as Hr.
  rewrite (property_reached _ _ "timespan" _ _ _ timespan Hc eq_refl Hr).
  unfold timespan.
  destruct (start_reached (S n) _ _ _ _ Hc Hr) as (h1 & Hrun1 & Hr1).
  rewrite (bind_res_run _ _ _ _ _ Hrun1), <- Hs.
  destruct (start_reached (S n) _ _ _ _ Hc Hr1) as (h2 & Hrun2 & Hr2).
  destruct (end_reached n _ _ _ _ Hc Hr1) as (h3 & Hrun3 & Hr3).
  destruct (end_reached n _ _ _ _ Hc Hr2) as (h4 & Hrun4 & Hr4).
  destruct (start_reached (S n) _ _ _ _ Hc Hr3) as (h5 & Hrun5 & Hr5).
  destruct (end_reached n _ _ _ _ Hc Hr5) as (h6 & Hrun6 & Hr6).
  rewrite <- Hs in Hrun2, Hrun5. rewrite <- He in Hrun3, Hrun4, Hrun6.
  destruct (is_None s); cbn [orb].
  { rewrite (bind_res_run _ _ _ _ _ Hrun2), (bind_res_run _ _ _ _ _ Hrun4). done. }
  rewrite (bind_res_run _ _ _ _ _ Hrun3).
  destruct (is_None e).
  { rewrite (bind_res_run _ _ _ _ _ Hrun5), (bind_res_run _ _ _ _ _ Hrun6). done. }
  rewrite (bind_res_run _ _ _ _ _ Hrun5), (bind_res_run _ _ _ _ _ Hrun6). done.
Qed.


End Components_memoized.

(** ** The statements on the example components *)

Lemma example_occurrence_of (self : loc) (start end_ : Z) :
  example_occurrences_heap !! self = Some (example_occurrence start end_) →
  occurrence_of example_occurrences_heap self 1%positive
    (example_occurrence start end_) example_journal.
Proof. intros Hself. by repeat split. Qed.

Lemma example_fields_names :
  VJournal_fields ⊆ example_property_ical_names VJournal.
Proof.
  intros name Hin. apply name_in_spec.
  unfold VJournal_fields in Hin.
  repeat (apply elem_of_cons in Hin as [->|Hin]; [reflexivity|]).
  by apply elem_of_nil in Hin.
Qed.

(** C3 on the example journal, which has a UID and no DTSTAMP. *)
Lemma uid_dtstamp_required_witness :
  getattr example_property_ical_names 2 1%positive "uid" example_journal_heap
    = (Ok (VProp (example_property 1%positive "UID" "journal-1")), example_journal_heap)
  ∧ getattr example_property_ical_names 2 1%positive "dtstamp" example_journal_heap
    = (Raise (MissingRequiredProperty 1%positive "dtstamp"), example_journal_heap).
Proof.
  exact (uid_dtstamp_required example_property_ical_names 0 1%positive
           example_journal_heap example_journal _ _ eq_refl eq_refl eq_refl eq_refl).
Defined.

(** C8 on the example journal. *)
Lemma journal_ending_and_duration_witness :
  getattr example_property_ical_names 2 1%positive "ending" example_journal_heap
    = getattr example_property_ical_names 1 1%positive "dtstart" example_journal_heap
  ∧ getattr example_property_ical_names 1 1%positive "dtstart" example_journal_heap
    = (Ok (VDT (example_property 1%positive "DTSTART" "100") 100), example_journal_heap)
  ∧ get_duration (getattr example_property_ical_names 0) 1%positive example_journal_heap
    = (Ok (VDuration 0), example_journal_heap).
Proof.
  exact (journal_ending_and_duration example_property_ical_names 0 1%positive
           example_journal_heap example_journal eq_refl eq_refl).
Defined.

(** C2 on the occurrence at 500 of the example journal. *)
Lemma occurrence_reads_witness :
  occurrence_of example_occurrences_heap 2%positive 1%positive
    (example_occurrence 500 500) example_journal
  ∧ getattr example_property_ical_names 2 2%positive "summary" example_occurrences_heap
    = getattr example_property_ical_names 2 1%positive "summary" example_occurrences_heap
  ∧ getattr example_property_ical_names 2 2%positive "start" example_occurrences_heap
    = (Ok (VDate 500), example_occurrences_heap)
  ∧ getattr example_property_ical_names 2 2%positive "end" example_occurrences_heap
    = (Ok (VDate 500), example_occurrences_heap)
  ∧ getattr example_property_ical_names 2 2%positive "original" example_occurrences_heap
    = (Ok (VRef 1%positive), example_occurrences_heap)
  ∧ getattr example_property_ical_names 2 2%positive "parent" example_occurrences_heap
    = getattr example_property_ical_names 1 1%positive "parent" example_occurrences_heap.
Proof.
  pose proof (example_occurrence_of 2%positive 500 500 eq_refl) as Hocc.
  split; [exact Hocc|].
  destruct (occurrence_reads example_property_ical_names 0 2%positive 1%positive
              example_occurrences_heap _ _ Hocc)
    as (Hforwarded & Hstart & Hend & Horiginal & Hparent & _ & _).
  split; [|split; [|split; [|split]]].
  - apply Hforwarded.
    + intros Hin%name_in_spec. discriminate Hin.
    + right. apply name_in_spec. reflexivity.
  - exact Hstart.
  - exact Hend.
  - exact Horiginal.
  - exact Hparent.
Defined.

(** C2 as stated fails on the example: [timespan] is none of [start], [end],
    [parent], [original], yet the occurrence at 500 answers with its own
    timespan, not with the timespan of the journal at 100; and it answers
    [_start], which the journal does not have. *)
Lemma occurrence_timespan_is_its_own :
  name_in "timespan" ["start"; "end"; "parent"; "original"] = false
  ∧ (getattr example_property_ical_names 4 2%positive "timespan" example_occurrences_heap).1
    = Ok (VTimespan 2%positive (VDate 500) (VDate 500))
  ∧ (getattr example_property_ical_names 4 1%positive "timespan" example_occurrences_heap).1
    = Ok (VTimespan 1%positive (VDate 100) (VDate 100))
  ∧ (getattr example_property_ical_names 4 2%positive "_start" example_occurrences_heap).1
    = Ok (VDate 500)
  ∧ (getattr example_property_ical_names 4 1%positive "_start" example_occurrences_heap).1
    = Raise (AttributeError "_start").
Proof. repeat split; vm_compute; reflexivity. Qed.



(** C9 on the occurrence at 500: a note written on it is read back, and the
    journal is as it was. *)
Lemma occurrence_write_witness :
  occurrence_of example_occurrences_heap 2%positive 1%positive
    (example_occurrence 500 500) example_journal
  ∧ (setattr example_Component___setattr__ 2 2%positive "note" (VStr "changed")
       example_occurrences_heap).2 !! 1%positive = Some example_journal
  ∧ getattr example_property_ical_names 2 2%positive "note"
      (setattr example_Component___setattr__ 2 2%positive "note" (VStr "changed")
         example_occurrences_heap).2
    = (Ok (VStr "changed"),
       (setattr example_Component___setattr__ 2 2%positive "note" (VStr "changed")
          example_occurrences_heap).2).
Proof.
  pose proof (example_occurrence_of 2%positive 500 500 eq_refl) as Hocc.
  split; [exact Hocc|].
  destruct (occurrence_write example_property_ical_names example_Component___setattr__
              0 0 2%positive 1%positive example_occurrences_heap _ _
              "note" (VStr "changed") Hocc)
    as (_ & Hmaster & Hplain).
  split; [exact Hmaster|].
  exact (proj2 (Hplain eq_refl)).
Defined.

(** C9 as stated fails on the example: after a summary is written on the
    occurrence at 500, reading the summary of the occurrence still gives the
    summary of the journal. *)
Lemma occurrence_write_is_not_read_back :
  (setattr example_Component___setattr__ 2 2%positive "summary" (VStr "changed")
     example_occurrences_heap).1 = Ok ()
  ∧ (getattr example_property_ical_names 4 2%positive "summary"
       (setattr example_Component___setattr__ 2 2%positive "summary" (VStr "changed")
          example_occurrences_heap).2).1
    = Ok (VProp (example_property 1%positive "SUMMARY" "Notes")).
Proof. split; vm_compute; reflexivity. Qed.

(** C4 on an event that starts at 100 and lasts 50. *)
Lemma timespan_spec_witness :
  (getattr example_property_ical_names 4 1%positive "timespan"
     (example_event_heap example_dtstart VNone (VDuration 50))).1
  = Ok (VTimespan 1%positive (VDate 100) (VDate 150)).
Proof.
  apply (timespan_spec example_property_ical_names 0 1%positive
           (example_event_heap example_dtstart VNone (VDuration 50))
           (example_event example_dtstart VNone (VDuration 50))
           (VDate 100) (VDate 150)).
  - reflexivity.
  - reflexivity.
  - vm_compute. reflexivity.
  - vm_compute. reflexivity.
Defined.

(** C4 as stated fails on an event without a start: the exception is a
    [ValueError]; no exception of the sources is called [UnresolvedTimespan]. *)
Lemma timespan_raises_ValueError :
  (getattr example_property_ical_names 4 1%positive "start"
     (example_event_heap VNone VNone VNone)).1 = Ok VNone
  ∧ (getattr example_property_ical_names 4 1%positive "timespan"
       (example_event_heap VNone VNone VNone)).1 = Raise (ValueError [VNone; VNone])
  ∧ exn_name (ValueError [VNone; VNone]) = "ValueError"
  ∧ exn_name (ValueError [VNone; VNone]) ≠ "UnresolvedTimespan".
Proof. repeat split; try (vm_compute; reflexivity). discriminate. Qed.

(** C6 fails on an event that starts at 100, has no end and a duration of
    zero: its ending is unset, its start and its duration are set, and its
    end is [None] instead of the start plus the duration; its timespan then
    raises. *)
Theorem end_of_zero_duration_event :
  (getattr example_property_ical_names 4 1%positive "ending"
     (example_event_heap example_dtstart VNone (VDuration 0))).1 = Ok VNone
  ∧ (getattr example_property_ical_names 4 1%positive "start"
       (example_event_heap example_dtstart VNone (VDuration 0))).1 = Ok (VDate 100)
  ∧ (get_duration (getattr example_property_ical_names 4) 1%positive
       (example_event_heap example_dtstart VNone (VDuration 0))).1 = Ok (VDuration 0)
  ∧ py_add (VDate 100) (VDuration 0) = Ok (VDate 100)
  ∧ (getattr example_property_ical_names 4 1%positive "end"
       (example_event_heap example_dtstart VNone (VDuration 0))).1 = Ok VNone
  ∧ (getattr example_property_ical_names 4 1%positive "timespan"
       (example_event_heap example_dtstart VNone (VDuration 0))).1
    = Raise (ValueError [VDate 100; VNone]).
Proof. repeat split; vm_compute; reflexivity. Qed.



(** The tokens of the example sub-properties. *)
Lemma example_tokens_of :
  tokens_of ";TZID=Europe/Amsterdam;VALUE=DATE-TIME;X;A=B=C;TZID=UTC;" example_tokens.
Proof. split; [reflexivity|]. split; [discriminate|]. by repeat constructor. Qed.

Lemma example_last_entry : last_entry example_tokens "TZID" "UTC".
Proof.
  exists [""; "TZID=Europe/Amsterdam"; "VALUE=DATE-TIME"; "X"; "A=B=C"], [""].
  repeat split; try reflexivity.
  intros v' _ Hin%list_elem_of_singleton. discriminate Hin.
Qed.

(** C10 on the example property: of the two tokens for TZID the last one
    gives the value; the token [X] and the token [A=B=C] give no entry. *)
Lemma sub_properties_spec_witness :
  sub_properties example_parameters = Ok example_dictionary
  ∧ tokens_of ";TZID=Europe/Amsterdam;VALUE=DATE-TIME;X;A=B=C;TZID=UTC;" example_tokens
  ∧ example_dictionary !! "TZID" = Some "UTC"
  ∧ example_dictionary !! "VALUE" = Some "DATE-TIME"
  ∧ example_dictionary !! "X" = None
  ∧ example_dictionary !! "A" = None.
Proof.
  destruct (sub_properties_spec example_parameters)
    as (d & tokens & Hd & Htokens & Hunique & Hentry & _).
  assert (Hdictionary : sub_properties example_parameters = Ok example_dictionary)
    by (vm_compute; reflexivity).
  assert (Heq : d = example_dictionary) by congruence.
  assert (Heq' : example_tokens = tokens) by apply (Hunique _ example_tokens_of).
  rewrite Heq, <- Heq' in Hentry.
  split; [exact Hdictionary|]. split; [exact example_tokens_of|].
  split; [exact (proj2 (Hentry "TZID" "UTC") example_last_entry)|].
  repeat split; reflexivity.
Defined.

(** * More about the code *)

(** ** [Property]: sub-properties *)

Lemma sub_property_tokens_clean (self : Property) (token : string) :
  token ∈ sub_property_tokens self → str_count token ";" = 0%nat.
Proof. apply str_split_pieces. Qed.

(** X1: the keys and the values of the sub-properties contain neither a
    ['='] nor a [';']. *)
Theorem sub_properties_entries_clean (self : Property) :
  ∃ d : gmap string string,
    sub_properties self = Ok d
    ∧ ∀ k v, d !! k = Some v →
        str_count k "=" = 0%nat ∧ str_count k ";" = 0%nat
        ∧ str_count v "=" = 0%nat ∧ str_count v ";" = 0%nat.
Proof.
  rewrite sub_properties_foldl. eexists. split; [done|].
  intros k v Hkv.
  apply foldl_add_token_lookup in Hkv as [(token & Hin & Hentry)|Hempty]; [|done].
  apply sub_property_tokens_clean in Hin.
  apply token_entry_Some in Hentry as (-> & Hk & Hv).
  rewrite str_count_append in Hin. simpl in Hin.
  repeat split; try done; lia.
Qed.

Lemma sub_property_tokens_unique (self : Property) (tokens : list string) :
  tokens_of (match _sub_properties self with Some s => s | None => "" end) tokens →
  sub_property_tokens self = tokens.
Proof.
  intros Htokens. rewrite (tokens_of_unique _ _ Htokens).
  apply tokens_of_unique, sub_property_tokens_of.
Qed.

(** X2: looking a key up in the sub-properties, where [tokens] are the
    tokens of the sub-properties string (the empty string when it is null).
    A key no token [key=v] is written for is absent: [has_sub_property] is
    [False] and the getters return the default; so it is for every key that
    contains a ['='] or a [';'].  A key with a token [key=v] is present, and
    the getters return the value of its last token, not the default. *)
Theorem sub_property_lookup (self : Property) (tokens : list string) (key : string)
    (default : option string) (default' : string) :
  tokens_of (match _sub_properties self with Some s => s | None => "" end) tokens →
  ((∀ v, str_count v "=" = 0%nat → key ++ String "=" v ∉ tokens) →
   has_sub_property self key = Ok false
   ∧ get_sub_property self key default = Ok default
   ∧ get_sub_property_default self key default' = Ok default')
  ∧ (str_count key "=" ≠ 0%nat ∨ str_count key ";" ≠ 0%nat →
     has_sub_property self key = Ok false
     ∧ get_sub_property self key default = Ok default
     ∧ get_sub_property_default self key default' = Ok default')
  ∧ (∀ v, last_entry tokens key v →
       has_sub_property self key = Ok true
       ∧ get_sub_property self key default = Ok (Some v)
       ∧ get_sub_property_default self key default' = Ok v).
Proof.
  intros Htokens.
  pose proof Htokens as (_ & _ & Hclean). rewrite Forall_forall in Hclean.
  unfold has_sub_property, get_sub_property, get_sub_property_default.
  rewrite sub_properties_foldl, (sub_property_tokens_unique _ _ Htokens).
  cbn [res_bind].
  split; [|split].
  - intros Hnone.
    destruct (foldl add_token ∅ tokens !! key) as [v|] eqn:Hkv; [|done].
    apply lookup_foldl_add_token in Hkv as (before & after & -> & _ & Hv & _).
    destruct (Hnone v Hv). apply elem_of_app. right. by left.
  - intros Hkey.
    destruct (foldl add_token ∅ tokens !! key) as [v|] eqn:Hkv; [|done].
    apply lookup_foldl_add_token in Hkv as (before & after & -> & Hk & _ & _).
    assert (Hin : key ++ String "=" v ∈ (before ++ (key ++ String "=" v)%string :: after)%list)
      by (apply elem_of_app; right; by left).
    apply Hclean in Hin. rewrite str_count_append in Hin. destruct Hkey; lia.
  - intros v Hlast%lookup_foldl_add_token. by rewrite Hlast.
Qed.

(** ** [Property.as_original_string] *)

Lemma foldl_add_token_empty_tokens (acc : gmap string string) (n : nat) :
  foldl add_token acc (replicate n "") = acc.
Proof.
  induction n as [|n IH]; [done|].
  by change (foldl add_token acc (replicate n "") = acc).
Qed.

Lemma str_split_lstrip (s : string) (c : ascii) :
  ∃ n, str_split s c = (replicate n "" ++ str_split (str_lstrip s c) c)%list.
Proof.
  induction s as [|a s IH]; [by exists 0%nat|].
  simpl. destruct (Ascii.eqb a c) eqn:Hac.
  - destruct IH as (n & ->). by exists (S n).
  - exists 0%nat. simpl. by rewrite Hac.
Qed.

Lemma str_rstrip_cons (a : ascii) (s : string) (c : ascii) :
  str_rstrip (String a s) c
  = match str_rstrip s c with
    | EmptyString => if Ascii.eqb a c then EmptyString else String a EmptyString
    | rest => String a rest
    end.
Proof. reflexivity. Qed.

Lemma str_split_rstrip (s : string) (c : ascii) :
  ∃ n, str_split s c = (str_split (str_rstrip s c) c ++ replicate n "")%list.
Proof.
  induction s as [|a s IH]; [by exists 0%nat|].
  destruct IH as (n & IH). rewrite str_rstrip_cons, str_split_cons_eq.
  destruct (str_rstrip s c) as [|b rest] eqn:Hrest.
  - change (str_split s c = "" :: replicate n "") in IH.
    destruct (Ascii.eqb a c) eqn:Hac.
    + exists (S n). by rewrite IH.
    + exists n. by rewrite IH, str_split_cons_eq, Hac.
  - rewrite (str_split_cons_eq a (String b rest)).
    destruct (Ascii.eqb a c).
    + exists n. by rewrite IH.
    + exists n. rewrite IH.
      pose proof (str_split_nonempty (String b rest) c) as Hne.
      by destruct (str_split (String b rest) c).
Qed.

Lemma foldl_add_token_strip (s : string) :
  foldl add_token ∅ (str_split (str_strip s ";") ";")
  = foldl add_token ∅ (str_split s ";").
Proof.
  unfold str_strip.
  destruct (str_split_rstrip s ";") as (n & ->).
  destruct (str_split_lstrip (str_rstrip s ";") ";") as (n' & ->).
  by rewrite !foldl_app, !foldl_add_token_empty_tokens.
Qed.

Lemma str_lstrip_idempotent (s : string) (c : ascii) :
  str_lstrip (str_lstrip s c) c = str_lstrip s c.
Proof.
  induction s as [|a s IH]; [done|]. simpl.
  destruct (Ascii.eqb a c) eqn:Hac; [done|]. simpl. by rewrite Hac.
Qed.

Lemma str_rstrip_idempotent (s : string) (c : ascii) :
  str_rstrip (str_rstrip s c) c = str_rstrip s c.
Proof.
  induction s as [|a s IH]; [done|]. rewrite str_rstrip_cons.
  destruct (str_rstrip s c) as [|b rest] eqn:Hrest.
  - destruct (Ascii.eqb a c) eqn:Hac; [done|]. simpl. by rewrite Hac.
  - by rewrite str_rstrip_cons, IH.
Qed.

Lemma str_rstrip_lstrip (s : string) (c : ascii) :
  str_rstrip s c = s → str_rstrip (str_lstrip s c) c = str_lstrip s c.
Proof.
  induction s as [|a s IH]; [done|]. rewrite str_rstrip_cons. simpl.
  destruct (Ascii.eqb a c) eqn:Hac.
  - destruct (str_rstrip s c) as [|b rest] eqn:Hrest; [done|].
    intros [= Hs]. apply IH. congruence.
  - intros Hs. rewrite str_rstrip_cons, Hac. exact Hs.
Qed.

(** X3: the sub-properties [as_original_string] writes are the stored ones
    without the [';'] at their ends; they parse to the same dictionary as the
    stored ones, and no [';'] is written when there are none. *)
Theorem as_original_string_sub_properties (self : Property) :
  let written := str_strip (or_empty (_sub_properties self)) ";" in
  sub_properties {| _parent := _parent self; _name := _name self;
                    _sub_properties := Some written; _value := _value self;
                    address := address self |}
    = sub_properties self
  ∧ str_lstrip written ";" = written
  ∧ str_rstrip written ";" = written
  ∧ as_original_string self
    = if String.eqb (or_empty (_sub_properties self)) ""
      then _name self ++ String ":" (format_optional (_value self))
      else _name self ++ String ";" written ++ String ":" (format_optional (_value self)).
Proof.
  intros written. split; [|split; [|split]].
  - rewrite !sub_properties_foldl. unfold sub_property_tokens. cbn [_sub_properties or_empty].
    f_equal. apply foldl_add_token_strip.
  - apply str_lstrip_idempotent.
  - apply str_rstrip_lstrip, str_rstrip_idempotent.
  - unfold as_original_string, written.
    destruct (_sub_properties self) as [s|]; cbn [or_empty]; [|done].
    by destruct (String.eqb s "").
Qed.

(** ** Components: derived values *)

Section Components_more.

Variable names : class → list string.

(** [timespan] in a store that reads have reached. *)
Lemma timespan_reached (n : nat) (self : loc) (o : object) (h h1 : heap) :
  is_recurring (obj_class o) = false →
  reached self o h h1 →
  ∃ h2, getattr names (S (S (S (S n)))) self "timespan" h1
          = (res_bind (start_of self o) (λ s,
               res_bind (end_of self o) (λ e,
                 if is_None s || is_None e then Raise (ValueError [s; e])
                 else Ok (VTimespan self s e))), h2)
        ∧ reached self o h h2.
Proof.
  intros Hc Hr.
  rewrite (property_reached names _ _ "timespan" _ _ _ timespan Hc eq_refl Hr).
  unfold timespan.
  destruct (start_reached names (S n) _ _ _ _ Hc Hr) as (h2 & Hrun1 & Hr1).
  rewrite (bind_res_run _ _ _ _ _ Hrun1).
  destruct (start_of self o) as [s|err] eqn:Hs; cbn [res_bind]; [|by eexists].
  destruct (start_reached names (S n) _ _ _ _ Hc Hr1) as (h3 & Hrun2 & Hr2).
  destruct (end_reached names n _ _ _ _ Hc Hr1) as (h4 & Hrun3 & Hr3).
  destruct (end_reached names n _ _ _ _ Hc Hr2) as (h5 & Hrun4 & Hr4).
  destruct (start_reached names (S n) _ _ _ _ Hc Hr3) as (h6 & Hrun5 & Hr5).
  destruct (end_reached names n _ _ _ _ Hc Hr5) as (h7 & Hrun6 & Hr6).
  rewrite Hs in Hrun2, Hrun5.
  destruct (is_None s) eqn:Hns; cbn [orb].
  { rewrite (bind_res_run _ _ _ _ _ Hrun2), (bind_res_run _ _ _ _ _ Hrun4).
    destruct (end_of self o); by eexists. }
  rewrite (bind_res_run _ _ _ _ _ Hrun3).
  destruct (end_of self o) as [e|err] eqn:He; cbn [res_bind]; [|by eexists].
  destruct (is_None e).
  { rewrite (bind_res_run _ _ _ _ _ Hrun5), (bind_res_run _ _ _ _ _ Hrun6).
    by eexists. }
  rewrite (bind_res_run _ _ _ _ _ Hrun5), (bind_res_run _ _ _ _ _ Hrun6).
  by eexists.
Qed.

Lemma fresh_values (self : loc) (o : object) :
  obj_cache o = ∅ →
  start_of self o = start_computed self o
  ∧ end_of self o = end_computed self o (start_computed self o)
  ∧ computed_duration_of self o
    = computed_duration_computed self o
        (end_computed self o (start_computed self o)) (start_computed self o).
Proof.
  intros Hfresh. unfold computed_duration_of, end_of, start_of, memoized.
  by rewrite Hfresh, !lookup_empty.
Qed.

(** X4: a journal occupies one instant.  With a DTSTART at [t], its start
    and its end are [t], its computed duration is zero and its timespan
    begins and ends at [t]; without a DTSTART, its start, its end and its
    computed duration are [None] and its timespan raises [ValueError]. *)
Theorem journal_single_instant (n : nat) (self : loc) (h : heap) (o : object) :
  h !! self = Some o →
  obj_class o = VJournal →
  obj_cache o = ∅ →
  (∀ p t, obj_dict o !! "dtstart" = Some (VDT p t) →
     (getattr names (S (S (S (S n)))) self "start" h).1 = Ok (VDate t)
     ∧ (getattr names (S (S (S (S n)))) self "end" h).1 = Ok (VDate t)
     ∧ (getattr names (S (S (S (S n)))) self "computed_duration" h).1 = Ok (VDuration 0)
     ∧ (getattr names (S (S (S (S n)))) self "timespan" h).1
       = Ok (VTimespan self (VDate t) (VDate t)))
  ∧ (obj_dict o !! "dtstart" = Some VNone →
     (getattr names (S (S (S (S n)))) self "start" h).1 = Ok VNone
     ∧ (getattr names (S (S (S (S n)))) self "end" h).1 = Ok VNone
     ∧ (getattr names (S (S (S (S n)))) self "computed_duration" h).1 = Ok VNone
     ∧ (getattr names (S (S (S (S n)))) self "timespan" h).1
       = Raise (ValueError [VNone; VNone])).
Proof.
  intros Hself Hclass Hfresh.
  assert (Hc : is_recurring (obj_class o) = false) by (by rewrite Hclass).
  destruct (component_reads names (S (S n)) _ _ _ Hself Hc) as (-> & _).
  destruct (component_reads names (S n) _ _ _ Hself Hc) as (_ & -> & _).
  destruct (component_reads names n _ _ _ Hself Hc) as (_ & _ & -> & _).
  destruct (timespan_reached n _ _ _ _ Hc (reached_refl _ _ _ Hself)) as (? & -> & _).
  cbn [fst].
  destruct (fresh_values self o Hfresh) as (-> & -> & ->).
  unfold computed_duration_computed, end_computed, start_computed,
    ending_of, duration_of, ending_field, field_of.
  rewrite Hclass. cbn [component_class].
  split.
  - intros p t ->. cbn. replace (t - t) with 0 by lia. done.
  - intros ->. done.
Qed.

(** X5: what [end] is, on a component on which nothing is memoized.  It is
    the date-time or the date of the ending when there is one.  Without an
    ending and with a start and a duration that is not zero, it is the start
    plus the duration: a date-time moves by the duration, a date by the whole
    days of the (positive) duration only, and the addition raises
    [OverflowError] when the result is after the year 9999 or before the
    year 1.  It is [None] when the duration is zero, and when the start or
    the duration is unset. *)
Theorem end_value (n : nat) (self : loc) (h : heap) (o : object) (en : value) :
  h !! self = Some o →
  is_recurring (obj_class o) = false →
  obj_cache o = ∅ →
  (getattr names (S (S (S (S n)))) self "ending" h).1 = Ok en →
  (∀ p t, en = VDT p t →
     (getattr names (S (S (S (S n)))) self "end" h).1 = Ok (VDate t))
  ∧ (∀ p day, en = VD p day →
     (getattr names (S (S (S (S n)))) self "end" h).1 = Ok (VDay day))
  ∧ (en = VNone →
     (∀ s d, (getattr names (S (S (S (S n)))) self "start" h).1 = Ok (VDate s) →
        (get_duration (getattr names (S (S (S (S n))))) self h).1 = Ok (VDuration d) →
        (getattr names (S (S (S (S n)))) self "end" h).1
          = if d =? 0 then Ok VNone
            else if (0 <=? s + d) && (s + d <=? datetime_max) then Ok (VDate (s + d))
            else Raise OverflowError)
     ∧ (∀ day d, (getattr names (S (S (S (S n)))) self "start" h).1 = Ok (VDay day) →
        (get_duration (getattr names (S (S (S (S n))))) self h).1 = Ok (VDuration d) →
        0 < d →
        (getattr names (S (S (S (S n)))) self "end" h).1
          = if (0 <=? day + d / microseconds_per_day)
               && (day + d / microseconds_per_day <=? date_max)
            then Ok (VDay (day + d / microseconds_per_day))
            else Raise OverflowError)
     ∧ ((getattr names (S (S (S (S n)))) self "start" h).1 = Ok VNone →
        (getattr names (S (S (S (S n)))) self "end" h).1 = Ok VNone)
     ∧ (∀ s, (getattr names (S (S (S (S n)))) self "start" h).1 = Ok s →
          (get_duration (getattr names (S (S (S (S n))))) self h).1 = Ok VNone →
          (getattr names (S (S (S (S n)))) self "end" h).1 = Ok VNone)).
Proof.
  intros Hself Hc Hfresh Hen.
  destruct (component_reads names (S (S n)) _ _ _ Hself Hc) as (Hs & _ & _ & Hending & _).
  destruct (component_reads names (S n) _ _ _ Hself Hc) as (_ & He & _).
  destruct (component_reads names (S (S (S n))) _ _ _ Hself Hc) as (_ & _ & _ & _ & Hd).
  rewrite Hs, He, Hd. rewrite Hending in Hen. clear Hs He Hd Hending.
  destruct (fresh_values self o Hfresh) as (-> & -> & _).
  unfold end_computed. rewrite Hen. cbn [res_bind].
  split; [by intros p t ->|]. split; [by intros p day ->|].
  intros ->. cbn [truthy]. split; [|split; [|split]].
  - intros s d -> ->. cbn [res_bind truthy negb py_add]. unfold datetime_at.
    by destruct (d =? 0).
  - intros day d -> -> Hd. cbn [res_bind truthy negb py_add].
    unfold date_at, whole_days.
    rewrite Z.quot_div_nonneg by (unfold microseconds_per_day; lia).
    by destruct (Z.eqb_spec d 0); [lia|].
  - by intros ->.
  - intros s -> ->. cbn [res_bind truthy]. by destruct (truthy s).
Qed.


(** X7: reading a derived value of a component changes no field: the store
    afterwards differs from the store before in what is memoized on the
    component, and in nothing else. *)
Theorem component_reads_change_no_field (n : nat) (self : loc) (h : heap) (o : object)
    (name : string) :
  h !! self = Some o →
  is_recurring (obj_class o) = false →
  name ∈ ["start"; "end"; "computed_duration"; "timespan"; "ending"] →
  ∃ o', (getattr names (S (S (S (S n)))) self name h).2 = <[self := o']> h
        ∧ obj_class o' = obj_class o
        ∧ obj_dict o' = obj_dict o.
Proof.
  intros Hself Hc Hname.
  pose proof (reached_refl _ _ _ Hself) as Hr.
  assert (Hreached : ∀ r h2, getattr names (S (S (S (S n)))) self name h = (r, h2) →
            reached self o h h2 →
            ∃ o', (getattr names (S (S (S (S n)))) self name h).2 = <[self := o']> h
                  ∧ obj_class o' = obj_class o ∧ obj_dict o' = obj_dict o).
  { intros r h2 -> (o' & -> & (Hc' & Hd' & _)). by exists o'. }
  repeat (apply elem_of_cons in Hname as [->|Hname]).
  - destruct (start_reached names (S (S n)) _ _ _ _ Hc Hr) as (h2 & Hrun & Hr2).
    by apply (Hreached _ _ Hrun).
  - destruct (end_reached names (S n) _ _ _ _ Hc Hr) as (h2 & Hrun & Hr2).
    by apply (Hreached _ _ Hrun).
  - destruct (computed_duration_reached names n _ _ _ _ Hc Hr) as (h2 & Hrun & Hr2).
    by apply (Hreached _ _ Hrun).
  - destruct (timespan_reached n _ _ _ _ Hc Hr) as (h2 & Hrun & Hr2).
    by apply (Hreached _ _ Hrun).
  - apply (Hreached _ _ (ending_reached names (S (S n)) _ _ _ _ Hc Hr) Hr).
  - by apply elem_of_nil in Hname.
Qed.

End Components_more.

(** ** Occurrences: more reads and writes *)

Section Occurrences_more.

Variable names : class → list string.

Lemma occurrence_component (h : heap) (self m : loc) (o om : object) :
  occurrence_of h self m o om → is_recurring (obj_class om) = false.
Proof.
  intros (_ & _ & _ & _ & ->). apply component_class_not_recurring.
Qed.

(** The start and the end of an occurrence are its own fields. *)
Lemma getattr_occurrence_start (n : nat) (self : loc) (h : heap) (o : object) :
  h !! self = Some o →
  is_recurring (obj_class o) = true →
  getattr names (S (S n)) self "start" h = (field_of self o "_start", h)
  ∧ getattr names (S (S n)) self "end" h = (field_of self o "_end", h).
Proof.
  intros Hself Hc. split.
  - rewrite (getattr_own_property names _ _ _ _ "start" recurring_start Hself Hc eq_refl).
    apply (getattr_own_field names _ _ _ _ _ Hself Hc).
    apply list_elem_of_In. simpl. tauto.
  - rewrite (getattr_own_property names _ _ _ _ "end" recurring_end Hself Hc eq_refl).
    apply (getattr_own_field names _ _ _ _ _ Hself Hc).
    apply list_elem_of_In. simpl. tauto.
Qed.

(** X8: the timespan of an occurrence is its own: it begins at the start of
    the occurrence, ends at its end and has the occurrence as its parent; it
    raises [ValueError] when the start or the end of the occurrence is
    [None].  The store is left as it was. *)
Theorem occurrence_timespan (n : nat) (self m : loc) (h : heap) (o om : object)
    (s e : value) :
  occurrence_of h self m o om →
  "timespan" ∉ names (obj_class om) →
  obj_dict o !! "_start" = Some s →
  obj_dict o !! "_end" = Some e →
  getattr names (S (S (S (S n)))) self "timespan" h
    = (if is_None s || is_None e then Raise (ValueError [s; e])
       else Ok (VTimespan self s e), h).
Proof.
  intros (Hself & Hc & Ho & Hm & Hmclass) Hnames Hs He.
  rewrite (getattr_not_forwarded names (S (S n)) self m h o om "timespan");
    try done; try (by intros ?%name_in_true).
  rewrite (object_getattribute_property _ _ _ _ _ timespan Hself)
    by (unfold lookup_property; by rewrite Hc).
  destruct (getattr_occurrence_start (S n) _ _ _ Hself Hc) as (Hstart & Hend).
  unfold field_of in Hstart, Hend. rewrite Hs in Hstart. rewrite He in Hend.
  unfold timespan.
  rewrite (bind_run _ _ _ _ _ Hstart).
  destruct (is_None s); cbn [orb].
  { by rewrite (bind_run _ _ _ _ _ Hstart), (bind_run _ _ _ _ _ Hend). }
  rewrite (bind_run _ _ _ _ _ Hend).
  destruct (is_None e).
  { by rewrite (bind_run _ _ _ _ _ Hstart), (bind_run _ _ _ _ _ Hend). }
  by rewrite (bind_run _ _ _ _ _ Hstart), (bind_run _ _ _ _ _ Hend).
Qed.

(** The getter of a required property, on a component. *)
Lemma component_required_run (n : nat) (self : loc) (h : heap) (o : object) :
  h !! self = Some o →
  is_recurring (obj_class o) = false →
  (∀ v, obj_dict o !! "_uid" = Some v →
     getattr names (S (S n)) self "uid" h
       = (if is_None v then Raise (MissingRequiredProperty self "uid") else Ok v, h))
  ∧ (∀ v, obj_dict o !! "_dtstamp" = Some v →
       getattr names (S (S n)) self "dtstamp" h
         = (if is_None v then Raise (MissingRequiredProperty self "dtstamp") else Ok v, h)).
Proof.
  intros Hself Hc.
  assert (Hfield : ∀ name v, obj_dict o !! name = Some v →
            assoc name (component_properties (obj_class o)) = None →
            getattr names (S n) self name h = (Ok v, h)).
  { intros name v Hv Hp. rewrite (getattr_component_field names _ _ _ _ _ Hself Hc Hp).
    unfold field_of. by rewrite Hv. }
  split; intros v Hv.
  - rewrite (getattr_component names _ _ _ _ _ Hself Hc).
    rewrite (object_getattribute_property _ _ _ _ _ uid Hself)
      by (by rewrite lookup_property_component).
    unfold uid. rewrite (bind_run _ _ _ _ _ (Hfield _ _ Hv eq_refl)).
    destruct (is_None v); [done|]. by apply Hfield.
  - rewrite (getattr_component names _ _ _ _ _ Hself Hc).
    rewrite (object_getattribute_property _ _ _ _ _ dtstamp Hself)
      by (by rewrite lookup_property_component).
    unfold dtstamp. rewrite (bind_run _ _ _ _ _ (Hfield _ _ Hv eq_refl)).
    destruct (is_None v); [done|]. by apply Hfield.
Qed.

(** X9: the required properties of an occurrence are those of its original:
    reading [uid] or [dtstamp] on an occurrence returns what is stored on the
    original, and raises [MissingRequiredProperty] for the original, not for
    the occurrence, when it is unset there. *)
Theorem occurrence_required_properties (n : nat) (self m : loc) (h : heap) (o om : object)
    (stored_uid stored_dtstamp : value) :
  occurrence_of h self m o om →
  "uid" ∈ names (obj_class om) →
  "dtstamp" ∈ names (obj_class om) →
  obj_dict om !! "_uid" = Some stored_uid →
  obj_dict om !! "_dtstamp" = Some stored_dtstamp →
  getattr names (S (S (S n))) self "uid" h
    = (if is_None stored_uid then Raise (MissingRequiredProperty m "uid")
       else Ok stored_uid, h)
  ∧ getattr names (S (S (S n))) self "dtstamp" h
    = (if is_None stored_dtstamp then Raise (MissingRequiredProperty m "dtstamp")
       else Ok stored_dtstamp, h).
Proof.
  intros Hocc Huid Hdtstamp Hu Hd.
  pose proof (occurrence_component _ _ _ _ _ Hocc) as Hmc.
  destruct Hocc as (Hself & Hc & Ho & Hm & Hmclass).
  destruct (component_required_run (S n) _ _ _ Hm Hmc) as (Hruid & Hrdtstamp).
  split.
  - rewrite (getattr_forwarded names (S n) self m h o om "uid");
      try done; [by apply Hruid|by intros ?%name_in_true|by right].
  - rewrite (getattr_forwarded names (S n) self m h o om "dtstamp");
      try done; [by apply Hrdtstamp|by intros ?%name_in_true|by right].
Qed.

End Occurrences_more.

Section Occurrence_writes_more.

Variable names : class → list string.
Variable Component___setattr__ : loc → string → value → M unit.

(** A write of a name that is no property of the class. *)
Lemma setattr_plain (n : nat) (self : loc) (key : string) (v : value)
    (h : heap) (o : object) :
  h !! self = Some o →
  is_recurring (obj_class o) = true →
  lookup_property (obj_class o) key = None →
  setattr Component___setattr__ (S n) self key v h
    = (Ok (), <[self := with_field o key v]> h).
Proof.
  intros Hself Hc Hp.
  rewrite (setattr_recurring _ _ _ _ _ _ _ Hself Hc). unfold object_setattr.
  rewrite (bind_run _ _ _ _ _ (load_run _ _ _ Hself)). rewrite Hp.
  by apply store_field_run.
Qed.

(** X10: the start, the end, the original and the parent of an occurrence
    cannot be assigned, and neither can its derived values: the write raises
    [AttributeError] and the store is left as it was. *)
Theorem occurrence_read_only (n : nat) (self : loc) (h : heap) (o : object)
    (key : string) (v : value) :
  h !! self = Some o →
  is_recurring (obj_class o) = true →
  key ∈ ["start"; "end"; "original"; "parent";
         "ending"; "timespan"; "computed_duration"] →
  setattr Component___setattr__ (S n) self key v h = (Raise (AttributeError key), h).
Proof.
  intros Hself Hc Hkey.
  rewrite (setattr_recurring _ _ _ _ _ _ _ Hself Hc). unfold object_setattr.
  rewrite (bind_run _ _ _ _ _ (load_run _ _ _ Hself)).
  unfold lookup_property. rewrite Hc.
  repeat (apply elem_of_cons in Hkey as [->|Hkey]; [done|]).
  by apply elem_of_nil in Hkey.
Qed.

(** X11: assigning [dtstamp] (or [uid]) on an occurrence goes through the
    setter and lands in the private field of the occurrence.  The original is
    untouched, and the occurrence still reads the property from its original:
    the written value is only seen in the private field. *)
Theorem occurrence_set_required (n n' : nat) (self m : loc) (h : heap) (o om : object)
    (v : value) :
  occurrence_of h self m o om →
  "dtstamp" ∈ names (obj_class om) →
  "_dtstamp" ∉ names (obj_class om) →
  "uid" ∈ names (obj_class om) →
  "_uid" ∉ names (obj_class om) →
  (setattr Component___setattr__ (S (S n)) self "dtstamp" v h
     = (Ok (), <[self := with_field o "_dtstamp" v]> h)
   ∧ getattr names (S (S n')) self "_dtstamp" (<[self := with_field o "_dtstamp" v]> h)
     = (Ok v, <[self := with_field o "_dtstamp" v]> h)
   ∧ getattr names (S (S n')) self "dtstamp" (<[self := with_field o "_dtstamp" v]> h)
     = getattr names (S (S n')) m "dtstamp" (<[self := with_field o "_dtstamp" v]> h))
  ∧ (setattr Component___setattr__ (S (S n)) self "uid" v h
       = (Ok (), <[self := with_field o "_uid" v]> h)
     ∧ getattr names (S (S n')) self "_uid" (<[self := with_field o "_uid" v]> h)
       = (Ok v, <[self := with_field o "_uid" v]> h)
     ∧ getattr names (S (S n')) self "uid" (<[self := with_field o "_uid" v]> h)
       = getattr names (S (S n')) m "uid" (<[self := with_field o "_uid" v]> h)).
Proof.
  intros Hocc Hd Hd' Hu Hu'.
  pose proof (occurrence_not_original _ _ _ _ _ Hocc) as Hne.
  pose proof (occurrence_component _ _ _ _ _ Hocc) as Hmc.
  destruct Hocc as (Hself & Hc & Ho & Hm & Hmclass).
  assert (Hwrite : ∀ name field,
            assoc name property_setters = Some (λ sa self v, sa self field v) →
            lookup_property (obj_class o) name = Some (if String.eqb name "uid" then uid else dtstamp) →
            lookup_property (obj_class o) field = None →
            setattr Component___setattr__ (S (S n)) self name v h
              = (Ok (), <[self := with_field o field v]> h)).
  { intros name field Hsetter Hp Hfield.
    rewrite (setattr_recurring _ _ _ _ _ _ _ Hself Hc). unfold object_setattr.
    rewrite (bind_run _ _ _ _ _ (load_run _ _ _ Hself)). rewrite Hp, Hsetter.
    by apply setattr_plain. }
  assert (Hread : ∀ name field, field ≠ "_original" →
            field ∉ own_attributes → field ∉ original_private_attributes →
            field ∉ names (obj_class om) →
            lookup_property (obj_class o) field = None →
            name ∉ own_attributes → name ∈ names (obj_class om) →
            getattr names (S (S n')) self field (<[self := with_field o field v]> h)
              = (Ok v, <[self := with_field o field v]> h)
            ∧ getattr names (S (S n')) self name (<[self := with_field o field v]> h)
              = getattr names (S (S n')) m name (<[self := with_field o field v]> h)).
  { intros name field Hfo Hown Hpriv Hnames Hp Hnown Hin.
    set (o' := with_field o field v). set (h' := <[self := o']> h).
    assert (Hself' : h' !! self = Some o') by apply lookup_insert_eq.
    assert (Ho' : obj_dict o' !! "_original" = Some (VRef m)).
    { unfold o'. simpl. by rewrite lookup_insert_ne. }
    assert (Hm' : h' !! m = Some om) by (unfold h'; by rewrite lookup_insert_ne).
    split.
    - rewrite (getattr_not_forwarded names n' self m h' o' om field); try done.
      rewrite (object_getattribute_field _ _ _ _ _ Hself' Hp).
      unfold field_of, o'. simpl. by rewrite lookup_insert_eq.
    - by apply (getattr_forwarded names n' self m h' o' om name); auto. }
  assert (Hp : ∀ name, name ∈ ["dtstamp"; "uid"; "_dtstamp"; "_uid"] →
            lookup_property (obj_class o) name
            = assoc name (component_properties (obj_class o))).
  { intros name Hname. unfold lookup_property. rewrite Hc.
    repeat (apply elem_of_cons in Hname as [->|Hname]; [done|]).
    by apply elem_of_nil in Hname. }
  split.
  - split.
    + apply Hwrite; [done|..]; rewrite Hp; try done; apply list_elem_of_In; simpl; tauto.
    + apply Hread; try done; try (by intros ?%name_in_true).
      rewrite Hp; [done|]. apply list_elem_of_In; simpl; tauto.
  - split.
    + apply Hwrite; [done|..]; rewrite Hp; try done; apply list_elem_of_In; simpl; tauto.
    + apply Hread; try done; try (by intros ?%name_in_true).
      rewrite Hp; [done|]. apply list_elem_of_In; simpl; tauto.
Qed.

End Occurrence_writes_more.

(** ** Construction of occurrences and the whole expansion *)

Section Construction.

Variable Component___setattr__ : loc → string → value → M unit.

Lemma fresh_loc_None (h : heap) : h !! fresh (dom h) = None.
Proof. apply not_elem_of_dom, is_fresh. Qed.

(** The initialiser raises before it writes. *)
Lemma VRecurringJournal___init___run (sa : writer) (self : loc) (h : heap)
    (original_component_instance start end_ : value) :
  VRecurringJournal___init__ sa self original_component_instance start end_ h
  = (Raise TypeError, h).
Proof. reflexivity. Qed.

(** The constructor makes a new object and fails to initialise it. *)
Lemma VRecurringJournal_new_run (depth : nat) (h : heap)
    (original_component_instance start end_ : value) :
  VRecurringJournal_new Component___setattr__ depth
    original_component_instance start end_ h
  = (Raise TypeError,
     <[fresh (dom h) := {| obj_class := VRecurringJournal; obj_dict := ∅; obj_cache := ∅ |}]> h).
Proof. reflexivity. Qed.


End Construction.

Section Expansion_more.

Variable names : class → list string.
Variable Component___setattr__ : loc → string → value → M unit.
Variable Iter : Type.
Variable property_utils_expand_component_in_range :
  ∀ (exdate_list rdate_list rrule first_event_start first_event_duration
     return_range make_tz_aware : value), Iter.
Variable iter_next : Iter → res (option (value * value * Iter)).

Local Abbreviation next'' :=
  (next names Component___setattr__ Iter property_utils_expand_component_in_range iter_next).
Local Abbreviation take_from'' :=
  (take_from names Component___setattr__ Iter property_utils_expand_component_in_range iter_next).

Lemma take_from_S (depth n : nat) (g : expansion Iter) (h : heap) :
  take_from'' depth (S n) g h
  = match next'' depth g h with
    | (Ok (None, _), h') => (Ok [], h')
    | (Ok (Some v, g'), h') =>
        match take_from'' depth n g' h' with
        | (Ok vs, h'') => (Ok (v :: vs), h'')
        | (Raise e, h'') => (Raise e, h'')
        end
    | (Raise e, h') => (Raise e, h')
    end.
Proof.
  cbn [take_from]. unfold bind.
  destruct (next'' depth g h) as [[[[v|] g']|e] h']; [|done|done].
  by destruct (take_from'' depth n g' h') as [[vs|e] h''].
Qed.

(** The second step of the expansion: the reads of the journal, which
    change none of its fields, and then the first turn of the loop. *)
Lemma next_AtFirstYield (n : nat) (self : loc) (return_range : value)
    (h : heap) (o : object) (exdate rdate rrule first_event_start first_event_duration : value) :
  h !! self = Some o →
  obj_class o = VJournal →
  obj_dict o !! "exdate" = Some exdate →
  obj_dict o !! "rdate" = Some rdate →
  obj_dict o !! "rrule" = Some rrule →
  (getattr names (S (S (S (S n)))) self "start" h).1 = Ok first_event_start →
  (getattr names (S (S (S (S n)))) self "computed_duration" h).1
    = Ok first_event_duration →
  ∃ o', obj_class o' = obj_class o ∧ obj_dict o' = obj_dict o
    ∧ next'' (S (S (S (S n)))) (AtFirstYield Iter self return_range) h
      = expansion_loop Component___setattr__ Iter iter_next (S (S (S (S n)))) self
          (property_utils_expand_component_in_range
             (py_or exdate (VList [])) (py_or rdate (VList [])) rrule
             first_event_start first_event_duration return_range VNone)
          (<[self := o']> h).
Proof.
  intros Hself Hclass Hex Hrd Hrr Hstart Hduration.
  assert (Hc : is_recurring (obj_class o) = false) by (by rewrite Hclass).
  pose proof (reached_refl _ _ _ Hself) as Hr.
  destruct (component_reads names (S (S n)) _ _ _ Hself Hc) as (Hs & _).
  destruct (component_reads names n _ _ _ Hself Hc) as (_ & _ & Hd & _).
  rewrite Hstart in Hs. rewrite Hduration in Hd. clear Hstart Hduration.
  destruct (start_reached names (S (S n)) _ _ _ _ Hc Hr) as (h1 & Hrun1 & Hr1).
  destruct (computed_duration_reached names n _ _ _ _ Hc Hr1) as (h2 & Hrun2 & Hr2).
  rewrite <- Hs in Hrun1. rewrite <- Hd in Hrun2.
  assert (Hfield : ∀ name v, obj_dict o !! name = Some v →
            assoc name (component_properties (obj_class o)) = None →
            getattr names (S (S (S (S n)))) self name h = (Ok v, h)).
  { intros name v Hv Hp. rewrite (field_reached names _ _ _ _ _ _ Hc Hp Hr).
    unfold field_of. by rewrite Hv. }
  destruct Hr2 as (o2 & -> & (Hc2 & Hd2 & _)).
  exists o2. split; [done|]. split; [done|].
  cbn [next].
  rewrite (bind_run _ _ _ _ _ (Hfield _ _ Hex eq_refl)).
  rewrite (bind_run _ _ _ _ _ (Hfield _ _ Hrd eq_refl)).
  rewrite (bind_run _ _ _ _ _ (Hfield _ _ Hrr eq_refl)).
  rewrite (bind_run _ _ _ _ _ Hrun1).
  by rewrite (bind_run _ _ _ _ _ Hrun2).
Qed.


End Expansion_more.

(** ** Equality of journals *)

Section Equality_more.

Variable names : class → list string.

(** The fields of the dataclass, read on a journal, are those of its
    instance dictionary. *)
Lemma journal_read_fields (n : nat) (self : loc) (h : heap) (o : object)
    (vs : list value) :
  h !! self = Some o →
  is_recurring (obj_class o) = false →
  field_values o VJournal_fields = Some vs →
  read_fields (getattr names (S n)) self VJournal_fields h = (Ok vs, h).
Proof.
  intros Hself Hc Hvs. apply read_fields_run.
  apply field_values_Forall2 in Hvs.
  assert (Hall : Forall (λ f, f ∈ VJournal_fields) VJournal_fields)
    by (by apply Forall_forall).
  assert (Hreads : ∀ fields vs,
            Forall (λ f, f ∈ VJournal_fields) fields →
            Forall2 (λ f v, obj_dict o !! f = Some v) fields vs →
            Forall2 (λ f v, getattr names (S n) self f h = (Ok v, h)) fields vs).
  { intros fields vs' Hin Hdict.
    induction Hdict as [|f v fields vs' Hv _ IH]; [constructor|].
    apply Forall_cons in Hin as [Hf Hin].
    constructor; [|by apply IH].
    rewrite (getattr_component_field names _ _ _ _ _ Hself Hc
               (proj2 (VJournal_fields_plain (obj_class o) _ Hf))).
    unfold field_of. by rewrite Hv. }
  by apply Hreads.
Qed.


End Equality_more.

(** ** Descriptions *)

Section Repr_more.

Variable names : class → list string.
Variable str_of : value → string.

(** X15: the description of a journal shows its start and the text of its
    summary.  The summary is optional: a journal without one has no
    description, [__repr__] raises [AttributeError]. *)
Theorem journal_repr (n : nat) (self : loc) (h : heap) (o : object) (s summary : value) :
  h !! self = Some o →
  obj_class o = VJournal →
  (getattr names (S (S (S n))) self "start" h).1 = Ok s →
  obj_dict o !! "summary" = Some summary →
  (summary = VNone →
   (VJournal___repr__ str_of (getattr names (S (S (S n)))) self h).1
     = Raise (AttributeError "value"))
  ∧ (∀ p, summary = VProp p →
     (VJournal___repr__ str_of (getattr names (S (S (S n)))) self h).1
       = Ok ("VJournal(" ++ str_of s ++ ": " ++ format_optional (_value p) ++ ")")).
Proof.
  intros Hself Hclass Hstart Hsummary.
  assert (Hc : is_recurring (obj_class o) = false) by (by rewrite Hclass).
  pose proof (reached_refl _ _ _ Hself) as Hr.
  destruct (start_reached names (S n) _ _ _ _ Hc Hr) as (h1 & Hrun & Hr1).
  rewrite Hrun in Hstart. simpl in Hstart. rewrite Hstart in Hrun.
  assert (Hread : getattr names (S (S (S n))) self "summary" h1 = (Ok summary, h1)).
  { assert (Hp : assoc "summary" (component_properties (obj_class o)) = None)
      by (by rewrite Hclass).
    rewrite (field_reached names _ _ "summary" _ _ _ Hc Hp Hr1).
    unfold field_of. by rewrite Hsummary. }
  unfold VJournal___repr__.
  rewrite (bind_run _ _ _ _ _ Hrun), (bind_run _ _ _ _ _ Hread).
  split.
  - by intros ->.
  - by intros p ->.
Qed.

(** X16: the description of an occurrence shows the start of the occurrence
    and the text of the summary of its original; when the original has no
    summary [__repr__] raises [AttributeError].  The store is left as it
    is. *)
Theorem occurrence_repr (n : nat) (self m : loc) (h : heap) (o om : object)
    (s summary : value) :
  occurrence_of h self m o om →
  obj_dict o !! "_start" = Some s →
  obj_dict om !! "summary" = Some summary →
  (summary = VNone →
   VRecurringJournal___repr__ str_of (getattr names (S (S n))) self h
     = (Raise (AttributeError "value"), h))
  ∧ (∀ p, summary = VProp p →
     VRecurringJournal___repr__ str_of (getattr names (S (S n))) self h
       = (Ok ("RVJournal(" ++ str_of s ++ ": " ++ format_optional (_value p) ++ ")"), h)).
Proof.
  intros (Hself & Hc & Ho & Hm & Hmclass) Hs Hsummary.
  assert (Hmc : is_recurring (obj_class om) = false)
    by (rewrite Hmclass; apply component_class_not_recurring).
  assert (Hstart : getattr names (S (S n)) self "_start" h = (Ok s, h)).
  { rewrite (getattr_own_field names _ _ _ _ _ Hself Hc)
      by (apply list_elem_of_In; simpl; tauto).
    unfold field_of. by rewrite Hs. }
  assert (Horiginal : getattr names (S (S n)) self "original" h = (Ok (VRef m), h)).
  { rewrite (getattr_own_property names _ _ _ _ "original" original Hself Hc eq_refl).
    by apply (getattr_original names _ _ _ o). }
  assert (Hread : getattr names (S (S n)) m "summary" h = (Ok summary, h)).
  { rewrite (getattr_component_field names _ _ _ _ _ Hm Hmc)
      by (by destruct (obj_class om)).
    unfold field_of. by rewrite Hsummary. }
  unfold VRecurringJournal___repr__.
  rewrite (bind_run _ _ _ _ _ Hstart), (bind_run _ _ _ _ _ Horiginal).
  cbn [getattr_of]. rewrite (bind_run _ _ _ _ _ Hread).
  split.
  - by intros ->.
  - by intros p ->.
Qed.

End Repr_more.

(** ** The properties above on the examples *)

(** X2 on the example property: TZID is present with the value of its last
    token; no token is written for X; a key with a ['='] is absent. *)
Lemma sub_property_lookup_witness :
  tokens_of ";TZID=Europe/Amsterdam;VALUE=DATE-TIME;X;A=B=C;TZID=UTC;" example_tokens
  ∧ has_sub_property example_parameters "TZID" = Ok true
  ∧ get_sub_property example_parameters "TZID" None = Ok (Some "UTC")
  ∧ get_sub_property_default example_parameters "TZID" "Europe/Amsterdam" = Ok "UTC"
  ∧ has_sub_property example_parameters "X" = Ok false
  ∧ get_sub_property_default example_parameters "A=B" "none" = Ok "none".
Proof.
  split; [exact example_tokens_of|].
  destruct (sub_property_lookup example_parameters example_tokens "TZID"
              None "Europe/Amsterdam" example_tokens_of) as (_ & _ & Hpresent).
  destruct (Hpresent "UTC" example_last_entry) as (Hhas & Hget & Hdefault).
  split; [exact Hhas|]. split; [exact Hget|]. split; [exact Hdefault|].
  destruct (sub_property_lookup example_parameters example_tokens "X"
              None "none" example_tokens_of) as (Habsent & _).
  destruct (sub_property_lookup example_parameters example_tokens "A=B"
              None "none" example_tokens_of) as (_ & Hkey & _).
  split.
  - apply Habsent. intros v _ Hin. unfold example_tokens in Hin.
    repeat (apply elem_of_cons in Hin as [Hin|Hin]; [discriminate Hin|]).
    by apply elem_of_nil in Hin.
  - apply Hkey. left. discriminate.
Defined.

(** X4 on the example journal, which starts at 100. *)
Lemma journal_single_instant_witness :
  (getattr example_property_ical_names 4 1%positive "start" example_journal_heap).1
    = Ok (VDate 100)
  ∧ (getattr example_property_ical_names 4 1%positive "end" example_journal_heap).1
    = Ok (VDate 100)
  ∧ (getattr example_property_ical_names 4 1%positive "computed_duration"
       example_journal_heap).1 = Ok (VDuration 0)
  ∧ (getattr example_property_ical_names 4 1%positive "timespan" example_journal_heap).1
    = Ok (VTimespan 1%positive (VDate 100) (VDate 100)).
Proof.
  exact (proj1 (journal_single_instant example_property_ical_names 0 1%positive
                  example_journal_heap example_journal eq_refl eq_refl eq_refl)
           (example_property 1%positive "DTSTART" "100") 100 eq_refl).
Defined.

(** X5 on an event that starts at 100, has no end and lasts 50, and on an
    event that starts on a date and lasts an hour: its end is the date. *)
Lemma end_value_witness :
  (getattr example_property_ical_names 4 1%positive "end"
     (example_event_heap example_dtstart VNone (VDuration 50))).1 = Ok (VDate 150)
  ∧ (getattr example_property_ical_names 4 1%positive "end"
       (example_event_heap example_date_start VNone example_hour)).1 = Ok (VDay 10).
Proof.
  split.
  - assert (Hending : (getattr example_property_ical_names 4 1%positive "ending"
              (example_event_heap example_dtstart VNone (VDuration 50))).1 = Ok VNone)
      by (vm_compute; reflexivity).
    destruct (end_value example_property_ical_names 0 1%positive
                (example_event_heap example_dtstart VNone (VDuration 50))
                (example_event example_dtstart VNone (VDuration 50)) VNone
                eq_refl eq_refl eq_refl Hending) as (_ & _ & Hunset).
    destruct (Hunset eq_refl) as (Hsum & _).
    apply (Hsum 100 50).
    + vm_compute. reflexivity.
    + vm_compute. reflexivity.
  - assert (Hending : (getattr example_property_ical_names 4 1%positive "ending"
              (example_event_heap example_date_start VNone example_hour)).1 = Ok VNone)
      by (vm_compute; reflexivity).
    destruct (end_value example_property_ical_names 0 1%positive
                (example_event_heap example_date_start VNone example_hour)
                (example_event example_date_start VNone example_hour) VNone
                eq_refl eq_refl eq_refl Hending) as (_ & _ & Hunset).
    destruct (Hunset eq_refl) as (_ & Hdays & _).
    apply (Hdays 10 3600000000).
    + vm_compute. reflexivity.
    + vm_compute. reflexivity.
    + reflexivity.
Defined.


(** X7 on the timespan of the example journal. *)
Lemma component_reads_change_no_field_witness :
  ∃ o', (getattr example_property_ical_names 4 1%positive "timespan"
           example_journal_heap).2 = <[1%positive := o']> example_journal_heap
        ∧ obj_class o' = obj_class example_journal
        ∧ obj_dict o' = obj_dict example_journal.
Proof.
  apply (component_reads_change_no_field example_property_ical_names 0 1%positive
           example_journal_heap example_journal "timespan").
  - reflexivity.
  - reflexivity.
  - apply list_elem_of_In. simpl. tauto.
Defined.

(** X8 on the occurrence at 500 of the example journal. *)
Lemma occurrence_timespan_witness :
  occurrence_of example_occurrences_heap 2%positive 1%positive
    (example_occurrence 500 500) example_journal
  ∧ getattr example_property_ical_names 4 2%positive "timespan" example_occurrences_heap
    = (Ok (VTimespan 2%positive (VDate 500) (VDate 500)), example_occurrences_heap).
Proof.
  pose proof (example_occurrence_of 2%positive 500 500 eq_refl) as Hocc.
  split; [exact Hocc|].
  apply (occurrence_timespan example_property_ical_names 0 2%positive 1%positive
           example_occurrences_heap (example_occurrence 500 500) example_journal
           (VDate 500) (VDate 500) Hocc).
  - intros Hin%name_in_spec. discriminate Hin.
  - reflexivity.
  - reflexivity.
Defined.

(** X9 on the occurrence at 500 of the example journal, which has a UID and
    no DTSTAMP. *)
Lemma occurrence_required_properties_witness :
  getattr example_property_ical_names 3 2%positive "uid" example_occurrences_heap
    = (Ok (VProp (example_property 1%positive "UID" "journal-1")), example_occurrences_heap)
  ∧ getattr example_property_ical_names 3 2%positive "dtstamp" example_occurrences_heap
    = (Raise (MissingRequiredProperty 1%positive "dtstamp"), example_occurrences_heap).
Proof.
  apply (occurrence_required_properties example_property_ical_names 0
           2%positive 1%positive example_occurrences_heap
           (example_occurrence 500 500) example_journal
           (VProp (example_property 1%positive "UID" "journal-1")) VNone
           (example_occurrence_of 2%positive 500 500 eq_refl)).
  - apply name_in_spec. reflexivity.
  - apply name_in_spec. reflexivity.
  - reflexivity.
  - reflexivity.
Defined.

(** X10 on the occurrence at 500: its start cannot be assigned. *)
Lemma occurrence_read_only_witness :
  setattr example_Component___setattr__ 1 2%positive "start" (VDate 700)
    example_occurrences_heap
  = (Raise (AttributeError "start"), example_occurrences_heap).
Proof.
  apply (occurrence_read_only example_Component___setattr__ 0 2%positive
           example_occurrences_heap (example_occurrence 500 500) "start" (VDate 700)).
  - reflexivity.
  - reflexivity.
  - apply list_elem_of_In. simpl. tauto.
Defined.

(** X11 on the occurrence at 500: a DTSTAMP assigned on it lands in its
    private field, and the occurrence still has the DTSTAMP of the journal. *)
Lemma occurrence_set_required_witness :
  setattr example_Component___setattr__ 2 2%positive "dtstamp"
    (VProp (example_property 2%positive "DTSTAMP" "7")) example_occurrences_heap
  = (Ok (),
     <[2%positive := with_field (example_occurrence 500 500) "_dtstamp"
                       (VProp (example_property 2%positive "DTSTAMP" "7"))]>
       example_occurrences_heap)
  ∧ getattr example_property_ical_names 2 2%positive "dtstamp"
      (<[2%positive := with_field (example_occurrence 500 500) "_dtstamp"
                         (VProp (example_property 2%positive "DTSTAMP" "7"))]>
         example_occurrences_heap)
    = getattr example_property_ical_names 2 1%positive "dtstamp"
        (<[2%positive := with_field (example_occurrence 500 500) "_dtstamp"
                           (VProp (example_property 2%positive "DTSTAMP" "7"))]>
           example_occurrences_heap).
Proof.
  destruct (occurrence_set_required example_property_ical_names
              example_Component___setattr__ 0 0 2%positive 1%positive
              example_occurrences_heap (example_occurrence 500 500) example_journal
              (VProp (example_property 2%positive "DTSTAMP" "7"))
              (example_occurrence_of 2%positive 500 500 eq_refl))
    as ((Hwrite & _ & Hread) & _).
  - apply name_in_spec. reflexivity.
  - intros Hin%name_in_spec. discriminate Hin.
  - apply name_in_spec. reflexivity.
  - intros Hin%name_in_spec. discriminate Hin.
  - split; [exact Hwrite|exact Hread].
Defined.




(** X15 on the example journal, whose summary is "Notes". *)
Lemma journal_repr_witness :
  (VJournal___repr__ example_str_of (getattr example_property_ical_names 3) 1%positive
     example_journal_heap).1 = Ok "VJournal(instant: Notes)".
Proof.
  assert (Hstart : (getattr example_property_ical_names 3 1%positive "start"
            example_journal_heap).1 = Ok (VDate 100))
    by (vm_compute; reflexivity).
  exact (proj2 (journal_repr example_property_ical_names example_str_of 0 1%positive
                  example_journal_heap example_journal (VDate 100)
                  (VProp (example_property 1%positive "SUMMARY" "Notes"))
                  eq_refl eq_refl Hstart eq_refl)
           (example_property 1%positive "SUMMARY" "Notes") eq_refl).
Defined.

(** X16 on the occurrence at 500 of the example journal. *)
Lemma occurrence_repr_witness :
  VRecurringJournal___repr__ example_str_of (getattr example_property_ical_names 2)
    2%positive example_occurrences_heap
  = (Ok "RVJournal(instant: Notes)", example_occurrences_heap).
Proof.
  exact (proj2 (occurrence_repr example_property_ical_names example_str_of 0
                  2%positive 1%positive example_occurrences_heap
                  (example_occurrence 500 500) example_journal (VDate 500)
                  (VProp (example_property 1%positive "SUMMARY" "Notes"))
                  (example_occurrence_of 2%positive 500 500 eq_refl) eq_refl eq_refl)
           (example_property 1%positive "SUMMARY" "Notes") eq_refl).
Defined.
